(** * CDT-plusplus: foliated S3 triangulations (src/S3Triangulation.h)

    A shallow embedding of the foliation pipeline of [S3Triangulation.h]:
    [classify_edges], [classify_3_simplices], [reclassify_3_simplices],
    [fix_timeslices], [check_timeslices], [make_2_sphere] and
    [make_S3_triangulation].

    The CGAL Delaunay engine is an external collaborator.  What the code
    observes of it (the finite cells and finite edges it iterates over, the
    per-vertex and per-cell [info()] payloads, the [is_valid()] predicates) is
    a record; what the code asks of it ([insert], [remove]) and the random
    point generator are parameters of a section.  Diagnostic output on
    [std::cout] is not modelled: no control flow depends on it. *)

From Stdlib Require Import ZArith List Lia Bool Permutation.
From stdpp Require Import gmap.
Import ListNotations.
Open Scope Z_scope.

(** ** [unsigned] and [int] arithmetic *)

Module Unsigned.

(** [unsigned] is 32 bits wide: every arithmetic result is reduced. *)
Definition modulus : Z := 2 ^ 32.

Definition wrap (z : Z) : Z := z mod modulus.

Definition in_range (z : Z) : Prop := 0 <= z < modulus.

(** [x++] on an [unsigned]. *)
Definition incr (z : Z) : Z := wrap (z + 1).

(** Conversion of an [unsigned] value to [int] (two's complement). *)
Definition to_int (z : Z) : Z := if z <? 2 ^ 31 then z else z - modulus.

(** Conversion of an [int] to [size_t] (64 bits), as the comparison
    [j < number_of_points] of [make_2_sphere] performs it. *)
Definition int_to_size_t (z : Z) : Z := z mod 2 ^ 64.

End Unsigned.

(** ** Data model *)

(** The argument of [Cell::vertex(int)]: CGAL requires it in 0..3, and the
    loops [for (size_t i = 0; i < 4; i++)] range over exactly these. *)
Inductive Index : Type := I0 | I1 | I2 | I3.

Definition indices : list Index := [I0; I1; I2; I3].

Definition Vertex_handle : Type := nat.
Definition Cell_handle : Type := nat.

(** What a [Vertex_handle] points to: the vertex and its [info()], the
    timeslice, which the code never writes after insertion. *)
Record Vertex : Type := mkVertex {
  v_handle : Vertex_handle;
  v_info : Z
}.

(** What a [Cell_handle] points to, apart from the mutable [info()] tag
    (kept in [cell_info] below): its four vertices and the outcome of the
    engine's [Cell::is_valid()]. *)
Record Cell : Type := mkCell {
  c_handle : Cell_handle;
  c_v0 : Vertex;
  c_v1 : Vertex;
  c_v2 : Vertex;
  c_v3 : Vertex;
  c_is_valid : bool
}.

Definition vertex (c : Cell) (i : Index) : Vertex :=
  match i with
  | I0 => c_v0 c
  | I1 => c_v1 c
  | I2 => c_v2 c
  | I3 => c_v3 c
  end.

(** A CGAL edge is a triple: a cell and the indices of two of its vertices. *)
Record Edge : Type := mkEdge {
  e_first : Cell;
  e_second : Index;
  e_third : Index
}.

(** The triangulation as the code observes it. *)
Record Delaunay : Type := mkDelaunay {
  finite_cells : list Cell;          (* finite_cells_begin() .. finite_cells_end() *)
  finite_edges : list Edge;          (* finite_edges_begin() .. finite_edges_end() *)
  cell_info : gmap Cell_handle Z;    (* cit->info() of the cells written so far *)
  is_valid : bool                    (* D3->is_valid() *)
}.

Definition number_of_finite_cells (D3 : Delaunay) : nat :=
  length (finite_cells D3).

Definition set_cell_info (D3 : Delaunay) (h : Cell_handle) (tag : Z) : Delaunay :=
  {| finite_cells := finite_cells D3;
     finite_edges := finite_edges D3;
     cell_info := <[h := tag]> (cell_info D3);
     is_valid := is_valid D3 |}.

(** Every timeslice read from the triangulation is an [unsigned]. *)
Definition cell_labels (c : Cell) : list Z :=
  map (fun i => v_info (vertex c i)) indices.

Definition labels_in_range (c : Cell) : Prop :=
  Forall Unsigned.in_range (cell_labels c).

(** ** Failure *)

Inductive Error : Type :=
  | DivisionByZero                 (* simplices / timeslices with timeslices = 0 *)
  | AssertSimplicesPerTimeslice    (* assert(simplices_per_timeslice >= 1) *)
  | AssertTriangulationValid       (* assert(D3->is_valid()) *)
  | LengthError.                   (* std::length_error out of reserve() *)

Inductive Result (A : Type) : Type :=
  | Ok (a : A)
  | Abort (e : Error).
Arguments Ok {A} a.
Arguments Abort {A} e.

Definition bind {A B : Type} (r : Result A) (k : A -> Result B) : Result B :=
  match r with
  | Ok a => k a
  | Abort e => Abort e
  end.

Notation "'let*' x ':=' r 'in' k" := (bind r (fun x => k))
  (at level 10, x name, r at level 100, k at level 200).

Definition assert (b : bool) (e : Error) : Result unit :=
  if b then Ok tt else Abort e.

(** ** [classify_edges] *)

(** The caller's counters [*N1_TL] and [*N1_SL]. *)
Record EdgeCounters : Type := mkEdgeCounters {
  N1_TL : Z;
  N1_SL : Z
}.

Definition classify_edge (n : EdgeCounters) (eit : Edge) : EdgeCounters :=
  let ch := e_first eit in
  let time1 := v_info (vertex ch (e_second eit)) in
  let time2 := v_info (vertex ch (e_third eit)) in
  if time1 =? time2
  then {| N1_TL := N1_TL n; N1_SL := Unsigned.incr (N1_SL n) |}
  else {| N1_TL := Unsigned.incr (N1_TL n); N1_SL := N1_SL n |}.

(** The triangulation is threaded through: the function receives a
    non-const [Delaunay*]. *)
Definition classify_edges (D3 : Delaunay) (n : EdgeCounters)
  : Delaunay * EdgeCounters :=
  (D3, fold_left classify_edge (finite_edges D3) n).

(** ** [check_timeslices] *)

(** The inner loop over the four vertices, shared in shape by
    [check_timeslices] and [fix_timeslices]: the running minimum, the
    running maximum and (for [fix_timeslices]) the index that last raised
    the maximum. *)
Record Scan : Type := mkScan {
  min_time : Z;
  max_time : Z;
  max_vertex : Index
}.

Definition scan_vertex (cit : Cell) (s : Scan) (i : Index) : Scan :=
  let current_time := v_info (vertex cit i) in
  let min_time' := if current_time <? min_time s then current_time else min_time s in
  if current_time >? max_time s
  then {| min_time := min_time'; max_time := current_time; max_vertex := i |}
  else {| min_time := min_time'; max_time := max_time s; max_vertex := max_vertex s |}.

(** [min_time = cit->vertex(0)->info(); max_time = min_time;] followed by
    the loop.  [max_vertex] enters with the value it has before the cell. *)
Definition scan_cell (cit : Cell) (max_vertex0 : Index) : Scan :=
  let min_time0 := v_info (vertex cit I0) in
  fold_left (scan_vertex cit) indices
    {| min_time := min_time0; max_time := min_time0; max_vertex := max_vertex0 |}.

(** [max_time - min_time != 1], an [unsigned] subtraction. *)
Definition bad_foliation (s : Scan) : bool :=
  negb (Unsigned.wrap (max_time s - min_time s) =? 1).

(** The counters [valid] and [invalid]. *)
Record CellCounters : Type := mkCellCounters {
  valid : Z;
  invalid : Z
}.

(** One iteration of the loop over the cells.  [check_timeslices] keeps no
    [max_vertex]; the scan is started with index 0 and the index is not
    read. *)
Definition check_cell (n : CellCounters) (cit : Cell) : CellCounters :=
  if c_is_valid cit then
    if bad_foliation (scan_cell cit I0)
    then {| valid := valid n; invalid := Unsigned.incr (invalid n) |}
    else {| valid := Unsigned.incr (valid n); invalid := invalid n |}
  else {| valid := valid n; invalid := Unsigned.incr (invalid n) |}.

Definition count_timeslices (D3 : Delaunay) : CellCounters :=
  fold_left check_cell (finite_cells D3) {| valid := 0; invalid := 0 |}.

Definition check_timeslices (D3 : Delaunay) (output : bool) : Result bool :=
  let n := count_timeslices D3 in
  let* _ := assert (is_valid D3) AssertTriangulationValid in
  Ok (if invalid n =? 0 then true else false).

(** ** [classify_3_simplices] *)

(** [std::list<unsigned>]: [sort], [back], [pop_back]. *)
Module StdList.

Fixpoint insert_sorted (x : Z) (l : list Z) : list Z :=
  match l with
  | [] => [x]
  | y :: l' => if x <=? y then x :: l else y :: insert_sorted x l'
  end.

Definition sort (l : list Z) : list Z := fold_right insert_sorted [] l.

(** [back()] is only called on non-empty lists. *)
Definition back (l : list Z) : Z := List.last l 0.

Definition pop_back (l : list Z) : list Z := removelast l.

End StdList.

(** The three caller-supplied vectors of cell handles. *)
Record Simplices : Type := mkSimplices {
  three_one : list Cell_handle;
  two_two : list Cell_handle;
  one_three : list Cell_handle
}.

Record ValueCounts : Type := mkValueCounts {
  max_values : Z;
  min_values : Z
}.

(** The body of [while (!timevalues.empty())]: one [back]/[pop_back]. *)
Definition count_value (max_time : Z) (n : ValueCounts) (current_time : Z)
  : ValueCounts :=
  if current_time =? max_time
  then {| max_values := Unsigned.incr (max_values n); min_values := min_values n |}
  else {| max_values := max_values n; min_values := Unsigned.incr (min_values n) |}.

(** The per-cell prelude: push the four timevalues, sort, take the back as
    [max_time], then drain the list from the back. *)
Definition count_values (cit : Cell) : ValueCounts :=
  let timevalues := StdList.sort (cell_labels cit) in
  let max_time := StdList.back timevalues in
  let timevalues := StdList.pop_back timevalues in
  fold_left (count_value max_time) (rev timevalues)
    {| max_values := Unsigned.incr 0; min_values := 0 |}.

Definition push_back {A : Type} (v : list A) (x : A) : list A := v ++ [x].

Definition classify_cell (st : Delaunay * Simplices) (cit : Cell)
  : Delaunay * Simplices :=
  let '(D3, s) := st in
  let n := count_values cit in
  if max_values n =? 3 then
    (set_cell_info D3 (c_handle cit) 13,
     {| three_one := three_one s; two_two := two_two s;
        one_three := push_back (one_three s) (c_handle cit) |})
  else if max_values n =? 2 then
    (set_cell_info D3 (c_handle cit) 22,
     {| three_one := three_one s;
        two_two := push_back (two_two s) (c_handle cit);
        one_three := one_three s |})
  else
    (set_cell_info D3 (c_handle cit) 31,
     {| three_one := push_back (three_one s) (c_handle cit);
        two_two := two_two s; one_three := one_three s |}).

Definition classify_3_simplices (D3 : Delaunay) (s : Simplices)
  : Delaunay * Simplices :=
  fold_left classify_cell (finite_cells D3) (D3, s).

Definition reclassify_3_simplices (D3 : Delaunay) (s : Simplices)
  : Delaunay * Simplices :=
  classify_3_simplices D3 {| three_one := []; two_two := []; one_three := [] |}.

(** ** The pipeline over an engine *)

Section Engine.

(** [Delaunay::Point] and the process-wide random source behind
    [CGAL::Random_points_on_sphere_3]. *)
Context {Point : Type} {Random : Type}.

(** [*gen++] for a generator built with [gen(radius)]. *)
Variable random_point_on_sphere : Z -> Random -> Point * Random.

(** [D3->insert(first, last)] over zipped points and timevalues, and
    [D3->remove(v)]. *)
Variable insert : Delaunay -> list (Point * Z) -> Delaunay.
Variable remove : Delaunay -> Vertex_handle -> Delaunay.

(** *** [fix_timeslices] *)

(** [max_vertex] is declared once, before the loop over the cells, and is
    carried from cell to cell.  The pass runs over the cells the iterator
    yields at the start of the call. *)
Definition fix_cell (st : Delaunay * Index) (cit : Cell) : Delaunay * Index :=
  let '(D3, max_vertex0) := st in
  if c_is_valid cit then
    let s := scan_cell cit max_vertex0 in
    if bad_foliation s
    then (remove D3 (v_handle (vertex cit (max_vertex s))), max_vertex s)
    else (D3, max_vertex s)
  else (D3, max_vertex0).

Definition fix_timeslices (D3 : Delaunay) (output : bool) : Delaunay :=
  fst (fold_left fix_cell (finite_cells D3) (D3, I0)).

(** *** [make_2_sphere] *)

(** [static_cast<unsigned int>(radius)] for the integral radii
    [1.0 + i] the builder passes, all below [2 ^ 32]. *)
Definition static_cast_unsigned (radius : Z) : Z := Unsigned.wrap radius.

Record Points : Type := mkPoints {
  vertices : list Point;
  timevalue : list Z;
  random : Random
}.

Fixpoint make_2_sphere_loop (n : nat) (radius : Z) (ps : Points) : Points :=
  match n with
  | O => ps
  | S n' =>
      let (p, g) := random_point_on_sphere radius (random ps) in
      make_2_sphere_loop n' radius
        {| vertices := push_back (vertices ps) p;
           timevalue := push_back (timevalue ps) (static_cast_unsigned radius);
           random := g |}
  end.

(** [j < number_of_points] compares a [size_t] with an [int]. *)
Definition make_2_sphere (ps : Points) (number_of_points : Z) (radius : Z)
    (output : bool) : Points :=
  make_2_sphere_loop (Z.to_nat (Unsigned.int_to_size_t number_of_points))
    radius ps.

(** [p] is a draw of the generator built for [radius]. *)
Definition sampled_at (radius : Z) (p : Point) : Prop :=
  exists g : Random, fst (random_point_on_sphere radius g) = p.

(** The two vectors grow in step, and every timevalue pushed is an
    [unsigned]. *)
Definition in_step (ps : Points) : Prop :=
  length (vertices ps) = length (timevalue ps) /\
  Forall Unsigned.in_range (timevalue ps).

(** *** [make_S3_triangulation] *)

Definition MAX_FOLIATION_FIX_PASSES : Z := 20.

(** [std::vector::reserve(n)] with an [int] argument: a negative [n]
    converts to a [size_type] above [max_size()]. *)
Definition reserve (n : Z) : Result unit :=
  assert (0 <=? n) LengthError.

(** The loop [for (size_t i = 0; i < timeslices; i++)]. *)
Definition make_spheres (timeslices : Z) (points : Z) (output : bool)
    (ps : Points) : Points :=
  fold_left
    (fun ps i =>
       let radius := 1 + Z.of_nat i in
       make_2_sphere ps points radius output)
    (seq 0 (Z.to_nat timeslices)) ps.

(** Lines 341-361: the configuration check and the point generation. *)
Definition generate_points (simplices timeslices : Z) (output : bool)
    (g : Random) : Result Points :=
  let* _ := assert (negb (timeslices =? 0)) DivisionByZero in
  let simplices_per_timeslice := simplices / timeslices in
  let* _ := assert (simplices_per_timeslice >=? 1) AssertSimplicesPerTimeslice in
  let points := Unsigned.to_int (Unsigned.wrap (simplices_per_timeslice * 4)) in
  let total_points :=
    Unsigned.to_int (Unsigned.wrap (Unsigned.wrap points * timeslices)) in
  let* _ := reserve total_points in
  Ok (make_spheres timeslices points output
        {| vertices := []; timevalue := []; random := g |}).

(** The zip iterator runs over both vectors in step; the builder fills
    them in step, so they have the same length. *)
Definition insert_into_S3 (D3 : Delaunay) (vertices : list Point)
    (timevalue : list Z) : Delaunay :=
  insert D3 (combine vertices timevalue).

(** The loop [while (!check_timeslices(D3, output))].  [None] is the
    model running out of fuel, never a behaviour of the program. *)
Fixpoint repair_loop (fuel : nat) (D3 : Delaunay) (pass : Z) (output : bool)
  : option (Result (Delaunay * Z)) :=
  match fuel with
  | O => None
  | S fuel' =>
      match check_timeslices D3 output with
      | Abort e => Some (Abort e)
      | Ok true => Some (Ok (D3, pass))
      | Ok false =>
          let pass := Unsigned.incr pass in
          if pass >? MAX_FOLIATION_FIX_PASSES then Some (Ok (D3, pass))
          else repair_loop fuel' (fix_timeslices D3 output) pass output
      end
  end.

(** How a run of the loop can end, [n] passes of [fix_timeslices] after
    it started on [D0] with the counter at [pass0]. *)
Definition loop_outcome (D0 : Delaunay) (pass0 : Z) (output : bool)
    (r : Result (Delaunay * Z)) : Prop :=
  match r with
  | Abort e => e = AssertTriangulationValid
  | Ok (D', pass) =>
      exists n : nat,
        Z.of_nat n <= MAX_FOLIATION_FIX_PASSES - pass0 /\
        D' = Nat.iter n (fun D => fix_timeslices D output) D0 /\
        ((pass = pass0 + Z.of_nat n /\ check_timeslices D' output = Ok true) \/
         (pass = MAX_FOLIATION_FIX_PASSES + 1 /\
          Z.of_nat n = MAX_FOLIATION_FIX_PASSES - pass0 /\
          check_timeslices D' output = Ok false))
  end.

(** What the function leaves behind and prints. *)
Record Universe : Type := mkUniverse {
  u_D3 : Delaunay;
  u_simplices : Simplices;
  u_pass : Z;
  u_valid : bool;
  u_number_of_finite_cells : nat;
  u_random : Random
}.

(** Lines 363-396, from the bulk insertion on. *)
Definition build (fuel : nat) (D3 : Delaunay) (ps : Points) (output : bool)
    (s : Simplices) : option (Result Universe) :=
  let D3 := insert_into_S3 D3 (vertices ps) (timevalue ps) in
  match repair_loop fuel D3 0 output with
  | None => None
  | Some (Abort e) => Some (Abort e)
  | Some (Ok (D3, pass)) =>
      let '(D3, s) := classify_3_simplices D3 s in
      Some (let* valid := check_timeslices D3 false in
            let* _ := assert (is_valid D3) AssertTriangulationValid in
            Ok {| u_D3 := D3; u_simplices := s; u_pass := pass;
                  u_valid := valid;
                  u_number_of_finite_cells := number_of_finite_cells D3;
                  u_random := random ps |})
  end.

Definition make_S3_triangulation (fuel : nat) (D3 : Delaunay)
    (simplices timeslices : Z) (output : bool) (s : Simplices) (g : Random)
  : option (Result Universe) :=
  match generate_points simplices timeslices output g with
  | Abort e => Some (Abort e)
  | Ok ps => build fuel D3 ps output s
  end.

End Engine.

(** ** Reference notions

    What the specification speaks of, stated on the data rather than
    computed the way the code computes it: the largest and the smallest
    timeslice of a cell, the number of vertices on the largest, the cells
    held invalid, the kinds of edge. *)

(** The largest and the smallest of the four timeslices of a cell. *)
Definition max_label (c : Cell) : Z :=
  Z.max (Z.max (v_info (c_v0 c)) (v_info (c_v1 c)))
        (Z.max (v_info (c_v2 c)) (v_info (c_v3 c))).

Definition min_label (c : Cell) : Z :=
  Z.min (Z.min (v_info (c_v0 c)) (v_info (c_v1 c)))
        (Z.min (v_info (c_v2 c)) (v_info (c_v3 c))).

(** How many of the four vertices carry the maximum timeslice. *)
Definition max_count (c : Cell) : Z :=
  Z.of_nat (count_occ Z.eq_dec (cell_labels c) (max_label c)).

(** A cell the validator holds against the foliation. *)
Definition invalid_cell (c : Cell) : bool :=
  if c_is_valid c then negb (max_label c - min_label c =? 1) else true.

Definition number_of_invalid_cells (D3 : Delaunay) : nat :=
  length (List.filter invalid_cell (finite_cells D3)).

Definition spacelike (e : Edge) : bool :=
  v_info (vertex (e_first e) (e_second e)) =? v_info (vertex (e_first e) (e_third e)).

Definition number_of_spacelike_edges (D3 : Delaunay) : Z :=
  Z.of_nat (length (List.filter spacelike (finite_edges D3))).

Definition number_of_timelike_edges (D3 : Delaunay) : Z :=
  Z.of_nat (length (List.filter (fun e => negb (spacelike e)) (finite_edges D3))).

Definition number_of_finite_edges (D3 : Delaunay) : Z :=
  Z.of_nat (length (finite_edges D3)).

(** The tag [classify_3_simplices] gives to a cell with [n] vertices on the
    maximum timeslice. *)
Definition tag_of (n : Z) : Z :=
  if n =? 3 then 13 else if n =? 2 then 22 else 31.

(** The vertices one pass of [fix_timeslices] hands to [remove], in order:
    the same loop with the calls recorded instead of performed. *)
Definition fix_cell_removed (st : list Vertex * Index) (cit : Cell)
  : list Vertex * Index :=
  let '(removed, max_vertex0) := st in
  if c_is_valid cit then
    let s := scan_cell cit max_vertex0 in
    if bad_foliation s
    then (removed ++ [vertex cit (max_vertex s)], max_vertex s)
    else (removed, max_vertex s)
  else (removed, max_vertex0).

Definition fix_timeslices_removed (D3 : Delaunay) : list Vertex :=
  fst (fold_left fix_cell_removed (finite_cells D3) ([], I0)).

(** What the scan leaves in [max_vertex]: the first index of the cell that
    raised the maximum, or, when no index did (vertex 0 is on the maximum
    timeslice), the value [max_vertex] had before the cell. *)
Definition max_vertex_ok (c : Cell) (mv : Index) (s : Scan) : Prop :=
  v_info (vertex c (max_vertex s)) = max_time s \/
  (max_time s = v_info (c_v0 c) /\ max_vertex s = mv).

(** The back of a list bounds the list: the invariant [sort] maintains that
    the classifier relies on. *)
Definition back_bounds (l : list Z) : Prop :=
  forall y, In y l -> y <= StdList.back l.

(** The three kinds of cell, as the classifier tells them apart. *)
Definition kind_13 (c : Cell) : bool := max_count c =? 3.
Definition kind_22 (c : Cell) : bool := max_count c =? 2.
Definition kind_31 (c : Cell) : bool :=
  negb (max_count c =? 3) && negb (max_count c =? 2).

Definition handles_of (p : Cell -> bool) (cs : list Cell) : list Cell_handle :=
  map c_handle (List.filter p cs).

(** The tags written by a pass over [cs], later writes over earlier ones. *)
Definition tagged (cs : list Cell) (m : gmap Cell_handle Z) : gmap Cell_handle Z :=
  fold_left (fun m c => <[c_handle c := tag_of (max_count c)]> m) cs m.

(** The range check on timeslices, as a computation. *)
Definition in_rangeb (z : Z) : bool := (0 <=? z) && (z <? Unsigned.modulus).

Definition labels_in_rangeb (c : Cell) : bool := forallb in_rangeb (cell_labels c).

(** How many of the four vertices carry the minimum timeslice. *)
Definition min_count (c : Cell) : Z :=
  Z.of_nat (count_occ Z.eq_dec (cell_labels c) (min_label c)).

(** A cell a pass of [fix_timeslices] acts on: structurally valid, and its
    timeslices do not span exactly one unit. *)
Definition repairable (c : Cell) : bool :=
  c_is_valid c && negb (max_label c - min_label c =? 1).

(** The number of handles held by the three vectors together. *)
Definition sizes (s : Simplices) : nat :=
  (length (three_one s) + length (two_two s) + length (one_three s))%nat.

(** The four vertices of a cell. *)
Definition cell_vertices (c : Cell) : list Vertex := map (vertex c) indices.

(** ** A small engine for running the pipeline

    Points are numbered in the order they are drawn.  [insert] makes one
    cell out of every four consecutive points of the batch (sliding by
    one), all structurally valid; [remove] drops the cells incident to the
    vertex, without filling the hole. *)
Module Toy.

Definition Point : Type := (Z * nat)%type.
Definition Random : Type := nat.

Definition random_point_on_sphere (radius : Z) (g : Random) : Point * Random :=
  ((radius, g), S g).

Definition to_vertex (p : Point * Z) : Vertex :=
  {| v_handle := snd (fst p); v_info := snd p |}.

Fixpoint cells_of (h : Cell_handle) (vs : list Vertex) : list Cell :=
  match vs with
  | a :: ((b :: c :: d :: _) as vs') =>
      mkCell h a b c d true :: cells_of (S h) vs'
  | _ => []
  end.

Definition insert (D3 : Delaunay) (ps : list (Point * Z)) : Delaunay :=
  {| finite_cells := finite_cells D3 ++ cells_of (length (finite_cells D3)) (map to_vertex ps);
     finite_edges := finite_edges D3;
     cell_info := cell_info D3;
     is_valid := is_valid D3 |}.

Definition incident (v : Vertex_handle) (c : Cell) : bool :=
  existsb (fun i => Nat.eqb (v_handle (vertex c i)) v) indices.

Definition remove (D3 : Delaunay) (v : Vertex_handle) : Delaunay :=
  {| finite_cells := List.filter (fun c => negb (incident v c)) (finite_cells D3);
     finite_edges := List.filter (fun e => negb (incident v (e_first e))) (finite_edges D3);
     cell_info := cell_info D3;
     is_valid := is_valid D3 |}.

(** An engine whose [remove] leaves the triangulation as it is. *)
Definition remove_nothing (D3 : Delaunay) (v : Vertex_handle) : Delaunay := D3.

Definition empty : Delaunay :=
  {| finite_cells := []; finite_edges := []; cell_info := ∅; is_valid := true |}.

Definition no_simplices : Simplices :=
  {| three_one := []; two_two := []; one_three := [] |}.

(** A cell with handle [h] on vertices [4h .. 4h+3] of the given
    timeslices. *)
Definition cell (h : Cell_handle) (t0 t1 t2 t3 : Z) (ok : bool) : Cell :=
  mkCell h (mkVertex (4 * h)%nat t0) (mkVertex (4 * h + 1)%nat t1)
    (mkVertex (4 * h + 2)%nat t2) (mkVertex (4 * h + 3)%nat t3) ok.
Arguments cell h%_nat t0 t1 t2 t3 ok.

Definition triangulation (cs : list Cell) (es : list Edge) : Delaunay :=
  {| finite_cells := cs; finite_edges := es; cell_info := ∅; is_valid := true |}.

(** A structurally valid cell spanning two timeslices, its maximum at
    index 0. *)
Definition early_max : Cell := cell 1 5 3 3 3 true.

(** A well foliated cell whose maximum is at index 3, then [early_max]. *)
Definition late_then_early : Delaunay :=
  triangulation [cell 0 1 1 1 2 true; early_max] [].

(** One cell of each kind, a cell on a single timeslice, and a cell the
    engine holds structurally invalid. *)
Definition mixed : Delaunay :=
  triangulation
    [cell 0 1 1 1 2 true; cell 1 1 1 2 2 true; cell 2 1 2 2 2 true;
     cell 3 2 2 2 2 true; cell 4 1 1 1 2 false] [].

(** A foliated triangulation. *)
Definition foliated : Delaunay :=
  triangulation [cell 0 1 1 1 2 true; cell 1 2 3 3 2 true] [].

Definition one_spacelike_edge : Delaunay :=
  triangulation [cell 0 1 1 1 2 true] [mkEdge (cell 0 1 1 1 2 true) I0 I1].

Definition one_timelike_edge : Delaunay :=
  triangulation [cell 0 1 1 1 2 true] [mkEdge (cell 0 1 1 1 2 true) I0 I3].

(** A well foliated cell beside a cell the engine holds structurally
    invalid. *)
Definition gap : Delaunay :=
  triangulation [cell 0 1 1 1 2 true; cell 1 4 1 1 1 false] [].

(** Vectors that already hold handles. *)
Definition some_simplices : Simplices :=
  {| three_one := [7%nat]; two_two := []; one_three := [8; 9]%nat |}.

(** Counters as a caller may hand them to [classify_edges]. *)
Definition one_and_zero : EdgeCounters := {| N1_TL := 1; N1_SL := 0 |}.
Definition top_and_one : EdgeCounters := {| N1_TL := 4294967295; N1_SL := 1 |}.

Definition both_edges : Delaunay :=
  triangulation [cell 0 1 1 1 2 true]
    [mkEdge (cell 0 1 1 1 2 true) I0 I1; mkEdge (cell 0 1 1 1 2 true) I0 I3;
     mkEdge (cell 0 1 1 1 2 true) I2 I3].

End Toy.

(** ** [unsigned] arithmetic *)

Module UnsignedFacts.

Import Unsigned.

Lemma wrap_small z : in_range z -> wrap z = z.
Proof. unfold in_range, wrap. intros H. now apply Z.mod_small. Qed.

Lemma wrap_in_range z : in_range (wrap z).
Proof. unfold in_range, wrap, modulus. apply Z.mod_pos_bound. lia. Qed.

Lemma modulus_eq : modulus = 4294967296.
Proof. reflexivity. Qed.

End UnsignedFacts.

(** ** Properties of the shared vertex scan *)

Lemma scan_vertex_min_time (c : Cell) (s : Scan) (i : Index) :
  min_time (scan_vertex c s i) = Z.min (min_time s) (v_info (vertex c i)).
Proof.
  unfold scan_vertex.
  destruct (v_info (vertex c i) >? max_time s); cbn [min_time];
    destruct (Z.ltb_spec (v_info (vertex c i)) (min_time s)); lia.
Qed.

Lemma scan_vertex_max_time (c : Cell) (s : Scan) (i : Index) :
  max_time (scan_vertex c s i) = Z.max (max_time s) (v_info (vertex c i)).
Proof.
  unfold scan_vertex. rewrite Z.gtb_ltb.
  destruct (Z.ltb_spec (max_time s) (v_info (vertex c i))); cbn [max_time]; lia.
Qed.

Lemma scan_cell_min_time (c : Cell) (mv : Index) :
  min_time (scan_cell c mv) = min_label c.
Proof.
  unfold scan_cell, indices, min_label. cbn [fold_left].
  rewrite !scan_vertex_min_time. cbn [min_time vertex]. lia.
Qed.

Lemma scan_cell_max_time (c : Cell) (mv : Index) :
  max_time (scan_cell c mv) = max_label c.
Proof.
  unfold scan_cell, indices, max_label. cbn [fold_left].
  rewrite !scan_vertex_max_time. cbn [max_time vertex]. lia.
Qed.

Lemma min_label_le_max_label (c : Cell) : min_label c <= max_label c.
Proof. unfold min_label, max_label. lia. Qed.

Lemma label_bounds (c : Cell) :
  labels_in_range c ->
  Unsigned.in_range (min_label c) /\ Unsigned.in_range (max_label c).
Proof.
  unfold labels_in_range, cell_labels, indices. cbn [map vertex].
  intros H.
  repeat match goal with
         | H : Forall _ (_ :: _) |- _ => apply Forall_cons_iff in H; destruct H
         end.
  unfold Unsigned.in_range, min_label, max_label in *. lia.
Qed.

(** On timeslices that are [unsigned] values the wrapped subtraction of
    the code is the subtraction of the integers. *)
Lemma bad_foliation_scan (c : Cell) (mv : Index) :
  labels_in_range c ->
  bad_foliation (scan_cell c mv) = negb (max_label c - min_label c =? 1).
Proof.
  intros H. unfold bad_foliation.
  rewrite scan_cell_min_time, scan_cell_max_time.
  destruct (label_bounds c H) as [Hmin Hmax].
  pose proof (min_label_le_max_label c).
  rewrite UnsignedFacts.wrap_small; [reflexivity|].
  unfold Unsigned.in_range in *. lia.
Qed.

(** ** Counting with [unsigned] counters *)

Lemma incr_in_range (z : Z) : Unsigned.in_range (Unsigned.incr z).
Proof. apply UnsignedFacts.wrap_in_range. Qed.

Lemma wrap_incr_add (z k : Z) :
  Unsigned.wrap (Unsigned.incr z + k) = Unsigned.wrap (z + (1 + k)).
Proof.
  unfold Unsigned.incr, Unsigned.wrap.
  rewrite Zplus_mod_idemp_l. f_equal. lia.
Qed.

Lemma filter_length_le {A : Type} (f : A -> bool) (l : list A) :
  (length (List.filter f l) <= length l)%nat.
Proof.
  induction l as [|a l IH]; cbn [List.filter length]; [lia|].
  destruct (f a); cbn [length]; lia.
Qed.

Lemma filter_negb_length {A : Type} (f : A -> bool) (l : list A) :
  (length (List.filter f l) + length (List.filter (fun a => negb (f a)) l)
   = length l)%nat.
Proof.
  induction l as [|a l IH]; cbn [List.filter length]; [reflexivity|].
  destruct (f a); cbn [negb length]; lia.
Qed.

(** *** The edge counters *)

Lemma classify_edge_in_range (n : EdgeCounters) (e : Edge) :
  Unsigned.in_range (N1_TL n) -> Unsigned.in_range (N1_SL n) ->
  Unsigned.in_range (N1_TL (classify_edge n e)) /\
  Unsigned.in_range (N1_SL (classify_edge n e)).
Proof.
  intros Ht Hs. unfold classify_edge.
  destruct (_ =? _); cbn [N1_TL N1_SL]; auto using incr_in_range.
Qed.

Lemma classify_edges_fold (es : list Edge) (n : EdgeCounters) :
  Unsigned.in_range (N1_TL n) -> Unsigned.in_range (N1_SL n) ->
  N1_TL (fold_left classify_edge es n)
  = Unsigned.wrap
      (N1_TL n + Z.of_nat (length (List.filter (fun e => negb (spacelike e)) es))) /\
  N1_SL (fold_left classify_edge es n)
  = Unsigned.wrap (N1_SL n + Z.of_nat (length (List.filter spacelike es))).
Proof.
  revert n. induction es as [|e es IH]; intros n Ht Hs.
  - cbn [fold_left List.filter length]. rewrite !Z.add_0_r.
    now rewrite !UnsignedFacts.wrap_small.
  - cbn [fold_left List.filter].
    destruct (classify_edge_in_range n e Ht Hs) as [Ht' Hs'].
    destruct (IH _ Ht' Hs') as [IHt IHs]. rewrite IHt, IHs. clear IH IHt IHs.
    unfold classify_edge, spacelike.
    destruct (_ =? _); cbn [negb N1_TL N1_SL length];
      rewrite ?wrap_incr_add, ?Nat2Z.inj_succ; split; f_equal; lia.
Qed.

(** *** The cell counters *)

Lemma check_cell_invalid (n : CellCounters) (c : Cell) :
  labels_in_range c ->
  check_cell n c =
  if invalid_cell c
  then {| valid := valid n; invalid := Unsigned.incr (invalid n) |}
  else {| valid := Unsigned.incr (valid n); invalid := invalid n |}.
Proof.
  intros H. unfold check_cell, invalid_cell.
  destruct (c_is_valid c); [|reflexivity].
  now rewrite bad_foliation_scan.
Qed.

Lemma check_cell_in_range (n : CellCounters) (c : Cell) :
  Unsigned.in_range (valid n) -> Unsigned.in_range (invalid n) ->
  Unsigned.in_range (valid (check_cell n c)) /\
  Unsigned.in_range (invalid (check_cell n c)).
Proof.
  intros Hv Hi. unfold check_cell.
  destruct (c_is_valid c); [destruct (bad_foliation _)|];
    cbn [valid invalid]; auto using incr_in_range.
Qed.

Lemma check_cells_fold (cs : list Cell) (n : CellCounters) :
  Forall labels_in_range cs ->
  Unsigned.in_range (valid n) -> Unsigned.in_range (invalid n) ->
  valid (fold_left check_cell cs n)
  = Unsigned.wrap
      (valid n + Z.of_nat (length (List.filter (fun c => negb (invalid_cell c)) cs))) /\
  invalid (fold_left check_cell cs n)
  = Unsigned.wrap (invalid n + Z.of_nat (length (List.filter invalid_cell cs))).
Proof.
  intros Hcs. revert n. induction Hcs as [|c cs Hc Hcs IH]; intros n Hv Hi.
  - cbn [fold_left List.filter length]. rewrite !Z.add_0_r.
    now rewrite !UnsignedFacts.wrap_small.
  - cbn [fold_left List.filter].
    destruct (check_cell_in_range n c Hv Hi) as [Hv' Hi'].
    destruct (IH _ Hv' Hi') as [IHv IHi]. rewrite IHv, IHi. clear IH IHv IHi.
    rewrite (check_cell_invalid n c Hc).
    destruct (invalid_cell c); cbn [negb valid invalid length];
      rewrite ?wrap_incr_add, ?Nat2Z.inj_succ; split; f_equal; lia.
Qed.

(** ** [check_timeslices]: the validator *)

(** C4.  On a triangulation the engine reports valid, whose timeslices are
    [unsigned] values and whose finite cells number fewer than [2 ^ 32],
    [check_timeslices] returns, and returns [true] exactly when no finite
    cell is invalid: a structurally valid cell is invalid iff the maximum
    and the minimum of its four timeslices do not differ by exactly 1, a
    structurally invalid cell is invalid whatever its timeslices.  The
    counter [invalid] holds the number of invalid cells and [valid] the
    number of the others. *)
Theorem check_timeslices_true_iff_no_invalid_cell (D3 : Delaunay) (output : bool) :
  Forall labels_in_range (finite_cells D3) ->
  Z.of_nat (number_of_finite_cells D3) < Unsigned.modulus ->
  is_valid D3 = true ->
  exists b : bool,
    check_timeslices D3 output = Ok b /\
    (b = true <-> number_of_invalid_cells D3 = 0%nat) /\
    invalid (count_timeslices D3) = Z.of_nat (number_of_invalid_cells D3) /\
    valid (count_timeslices D3)
    = Z.of_nat (number_of_finite_cells D3 - number_of_invalid_cells D3).
Proof.
  intros Hlabels Hsize Hvalid.
  assert (H0 : Unsigned.in_range 0) by (unfold Unsigned.in_range, Unsigned.modulus; lia).
  destruct (check_cells_fold (finite_cells D3) {| valid := 0; invalid := 0 |}
              Hlabels H0 H0) as [Hv Hi].
  cbn [valid invalid] in Hv, Hi. rewrite Z.add_0_l in Hv, Hi.
  pose proof (filter_length_le invalid_cell (finite_cells D3)) as Hle.
  pose proof (filter_negb_length invalid_cell (finite_cells D3)) as Hsum.
  unfold number_of_finite_cells in *.
  rewrite UnsignedFacts.wrap_small in Hv, Hi
    by (unfold Unsigned.in_range; lia).
  fold (count_timeslices D3) in Hv, Hi. fold (number_of_invalid_cells D3) in *.
  exists (if invalid (count_timeslices D3) =? 0 then true else false).
  repeat split.
  - unfold check_timeslices. rewrite Hvalid. reflexivity.
  - rewrite Hi. destruct (Z.eqb_spec (Z.of_nat (number_of_invalid_cells D3)) 0);
      [lia | discriminate].
  - rewrite Hi. destruct (Z.eqb_spec (Z.of_nat (number_of_invalid_cells D3)) 0);
      [reflexivity | lia].
  - exact Hi.
  - rewrite Hv. f_equal. lia.
Qed.

(** ** [std::list::sort] and the drain loop of [classify_3_simplices] *)

Lemma insert_sorted_perm (x : Z) (l : list Z) :
  Permutation (StdList.insert_sorted x l) (x :: l).
Proof.
  induction l as [|y l IH]; cbn [StdList.insert_sorted]; [reflexivity|].
  destruct (x <=? y); [reflexivity|].
  rewrite IH. apply perm_swap.
Qed.

Lemma sort_perm (l : list Z) : Permutation (StdList.sort l) l.
Proof.
  induction l as [|x l IH]; cbn [StdList.sort fold_right]; [reflexivity|].
  fold (StdList.sort l). rewrite insert_sorted_perm. now constructor.
Qed.

Lemma back_cons (x y : Z) (l : list Z) :
  StdList.back (x :: y :: l) = StdList.back (y :: l).
Proof. reflexivity. Qed.

Lemma insert_sorted_back_bounds (x : Z) (l : list Z) :
  back_bounds l -> back_bounds (StdList.insert_sorted x l).
Proof.
  induction l as [|a l IH]; intros Hl.
  - intros y [<-|[]]. cbn. lia.
  - cbn [StdList.insert_sorted].
    destruct (Z.leb_spec x a) as [Hxa|Hxa]; cbv iota.
    + intros y Hy. rewrite back_cons.
      destruct Hy as [<-|Hy]; [|now apply Hl].
      transitivity a; [exact Hxa|]. apply Hl. now left.
    + assert (Htail : back_bounds l).
      { destruct l as [|b l]; [intros y []|].
        intros y Hy. rewrite <- (back_cons a). apply Hl. now right. }
      specialize (IH Htail).
      assert (Hne : exists b l', StdList.insert_sorted x l = b :: l').
      { destruct l as [|b l]; cbn [StdList.insert_sorted]; [now eauto|].
        destruct (x <=? b); eauto. }
      destruct Hne as (b & l' & Heq). rewrite Heq in *.
      intros y Hy. rewrite back_cons.
      destruct Hy as [<-|Hy]; [|now apply IH].
      destruct l as [|c l].
      * cbn in Heq. injection Heq as <- <-. cbn. lia.
      * transitivity (StdList.back (c :: l)).
        -- rewrite <- (back_cons a). apply Hl. now left.
        -- pose proof (insert_sorted_perm x (c :: l)) as Hp. rewrite Heq in Hp.
           apply IH. apply (Permutation_in _ (Permutation_sym Hp)).
           right. clear. unfold StdList.back.
           generalize c. induction l as [|d l IHl]; intros c0; [now left|].
           right. apply IHl.
Qed.

Lemma sort_back_bounds (l : list Z) : back_bounds (StdList.sort l).
Proof.
  induction l as [|x l IH]; [intros y []|].
  cbn [StdList.sort fold_right]. now apply insert_sorted_back_bounds.
Qed.

Lemma back_in (l : list Z) : l <> [] -> In (StdList.back l) l.
Proof.
  induction l as [|x l IH]; [congruence|]. intros _.
  destruct l as [|y l]; [now left|].
  right. rewrite back_cons. apply IH. discriminate.
Qed.

Lemma sort_not_nil (l : list Z) : l <> [] -> StdList.sort l <> [].
Proof.
  intros Hl Hs. apply Hl. apply Permutation_nil.
  rewrite <- Hs. apply sort_perm.
Qed.

Lemma count_values_fold (m : Z) (l : list Z) (n : ValueCounts) :
  0 <= max_values n ->
  max_values n + Z.of_nat (length l) < Unsigned.modulus ->
  max_values (fold_left (count_value m) l n)
  = max_values n + Z.of_nat (count_occ Z.eq_dec l m).
Proof.
  revert n. induction l as [|t l IH]; intros n H0 Hlt.
  - cbn. lia.
  - cbn [fold_left count_occ]. cbn [length] in Hlt.
    unfold count_value at 2.
    destruct (Z.eqb_spec t m) as [->|Hne].
    + rewrite IH; cbn [max_values]; unfold Unsigned.incr;
        rewrite UnsignedFacts.wrap_small by (unfold Unsigned.in_range; lia); try lia.
      destruct (Z.eq_dec m m); [lia|congruence].
    + rewrite IH; cbn [max_values]; try lia.
      destruct (Z.eq_dec t m); [congruence|lia].
Qed.

Lemma cell_labels_max_label (c : Cell) :
  StdList.back (StdList.sort (cell_labels c)) = max_label c.
Proof.
  assert (Hne : cell_labels c <> []) by discriminate.
  pose proof (back_in _ (sort_not_nil _ Hne)) as Hin.
  apply (Permutation_in _ (sort_perm _)) in Hin.
  assert (Hub : forall y, In y (cell_labels c) ->
                          y <= StdList.back (StdList.sort (cell_labels c))).
  { intros y Hy. apply sort_back_bounds.
    apply (Permutation_in _ (Permutation_sym (sort_perm _))). exact Hy. }
  revert Hin Hub. generalize (StdList.back (StdList.sort (cell_labels c))).
  intros m. unfold cell_labels, indices, max_label. cbn [map vertex In].
  intros Hin Hub.
  pose proof (Hub _ (or_introl eq_refl)).
  pose proof (Hub _ (or_intror (or_introl eq_refl))).
  pose proof (Hub _ (or_intror (or_intror (or_introl eq_refl)))).
  pose proof (Hub _ (or_intror (or_intror (or_intror (or_introl eq_refl))))).
  lia.
Qed.

(** The counter the classifier branches on is the number of vertices of the
    cell on its maximum timeslice. *)
Lemma count_values_max_count (c : Cell) :
  max_values (count_values c) = max_count c.
Proof.
  unfold count_values, max_count.
  rewrite cell_labels_max_label.
  assert (Hne : StdList.sort (cell_labels c) <> [])
    by (apply sort_not_nil; discriminate).
  pose proof (app_removelast_last 0 Hne) as Hsplit.
  fold (StdList.back (StdList.sort (cell_labels c))) in Hsplit.
  rewrite cell_labels_max_label in Hsplit.
  fold (StdList.pop_back (StdList.sort (cell_labels c))) in Hsplit.
  assert (Hlen : length (StdList.pop_back (StdList.sort (cell_labels c))) = 3%nat).
  { pose proof (Permutation_length (sort_perm (cell_labels c))) as HL.
    change (length (cell_labels c)) with 4%nat in HL.
    pose proof (f_equal (@length Z) Hsplit) as HS.
    rewrite length_app in HS. cbn [length] in HS. lia. }
  rewrite count_values_fold; cbn [max_values].
  - rewrite <- (proj1 (Permutation_count_occ Z.eq_dec _ _)
                  (sort_perm (cell_labels c)) (max_label c)).
    rewrite Hsplit at 2. rewrite count_occ_app.
    rewrite <- (proj1 (Permutation_count_occ Z.eq_dec _ _)
                  (Permutation_rev (StdList.pop_back (StdList.sort (cell_labels c))))
                  (max_label c)).
    cbn [count_occ]. destruct (Z.eq_dec _ _); [|congruence].
    change (Unsigned.incr 0) with 1. lia.
  - change (Unsigned.incr 0) with 1. lia.
  - rewrite length_rev, Hlen. reflexivity.
Qed.

(** ** One classification pass *)

Lemma classify_cell_kind (D3 : Delaunay) (s : Simplices) (c : Cell) :
  classify_cell (D3, s) c =
  (set_cell_info D3 (c_handle c) (tag_of (max_count c)),
   {| three_one := three_one s ++ handles_of kind_31 [c];
      two_two := two_two s ++ handles_of kind_22 [c];
      one_three := one_three s ++ handles_of kind_13 [c] |}).
Proof.
  unfold classify_cell, handles_of, kind_31, kind_22, kind_13, tag_of, push_back.
  rewrite count_values_max_count. cbn [List.filter map].
  destruct (Z.eqb_spec (max_count c) 3) as [H3|H3].
  - rewrite H3. cbn. now rewrite !app_nil_r.
  - destruct (Z.eqb_spec (max_count c) 2) as [H2|H2]; cbn; now rewrite !app_nil_r.
Qed.

Lemma handles_of_cons (p : Cell -> bool) (c : Cell) (cs : list Cell) :
  handles_of p (c :: cs) = handles_of p [c] ++ handles_of p cs.
Proof.
  unfold handles_of. cbn [List.filter]. destruct (p c); reflexivity.
Qed.

Lemma classify_fold (cs : list Cell) (D3 : Delaunay) (s : Simplices) :
  fold_left classify_cell cs (D3, s) =
  ({| finite_cells := finite_cells D3;
      finite_edges := finite_edges D3;
      cell_info := tagged cs (cell_info D3);
      is_valid := is_valid D3 |},
   {| three_one := three_one s ++ handles_of kind_31 cs;
      two_two := two_two s ++ handles_of kind_22 cs;
      one_three := one_three s ++ handles_of kind_13 cs |}).
Proof.
  revert D3 s. induction cs as [|c cs IH]; intros D3 s.
  - cbn. unfold handles_of. cbn. rewrite !app_nil_r. now destruct D3, s.
  - cbn [fold_left]. rewrite classify_cell_kind, IH.
    cbn [set_cell_info finite_cells finite_edges cell_info is_valid
         three_one two_two one_three tagged fold_left].
    rewrite (handles_of_cons kind_31 c cs), (handles_of_cons kind_22 c cs),
      (handles_of_cons kind_13 c cs), <- !app_assoc.
    reflexivity.
Qed.

Lemma tagged_lookup_other (cs : list Cell) (m : gmap Cell_handle Z) (h : Cell_handle) :
  ~ In h (map c_handle cs) -> tagged cs m !! h = m !! h.
Proof.
  revert m. induction cs as [|c cs IH]; intros m Hh; [reflexivity|].
  cbn [map In] in Hh. cbn [tagged fold_left]. fold (tagged cs).
  rewrite IH by tauto. apply lookup_insert_ne. tauto.
Qed.

Lemma tagged_lookup (cs : list Cell) (m : gmap Cell_handle Z) (c : Cell) :
  List.NoDup (map c_handle cs) -> In c cs ->
  tagged cs m !! c_handle c = Some (tag_of (max_count c)).
Proof.
  revert m. induction cs as [|a cs IH]; intros m Hnd Hin; [destruct Hin|].
  cbn [map] in Hnd. apply NoDup_cons_iff in Hnd. destruct Hnd as [Hna Hnd].
  cbn [tagged fold_left]. fold (tagged cs).
  destruct Hin as [->|Hin].
  - rewrite tagged_lookup_other by exact Hna. apply lookup_insert_eq.
  - now apply IH.
Qed.

Lemma in_handles_of (p : Cell -> bool) (cs : list Cell) (c : Cell) :
  In c cs -> p c = true -> In (c_handle c) (handles_of p cs).
Proof.
  intros Hin Hp. unfold handles_of. apply in_map. apply filter_In. now split.
Qed.

Lemma handles_of_partition (cs : list Cell) :
  Permutation
    (handles_of kind_31 cs ++ handles_of kind_22 cs ++ handles_of kind_13 cs)
    (map c_handle cs).
Proof.
  induction cs as [|c cs IH]; [reflexivity|].
  rewrite (handles_of_cons kind_31 c cs), (handles_of_cons kind_22 c cs),
    (handles_of_cons kind_13 c cs).
  unfold handles_of at 1 3 5. cbn [List.filter].
  destruct (kind_31 c) eqn:H31, (kind_22 c) eqn:H22, (kind_13 c) eqn:H13;
    unfold kind_31, kind_22, kind_13 in H31, H22, H13;
    try (exfalso;
         destruct (Z.eqb_spec (max_count c) 3), (Z.eqb_spec (max_count c) 2);
         cbn in *; (discriminate || lia));
    cbn [map app].
  - now constructor.
  - rewrite <- Permutation_middle. now constructor.
  - rewrite app_assoc, <- Permutation_middle, <- app_assoc. now constructor.
Qed.

(** C2.  A classification pass that starts from three empty vectors on a
    triangulation whose finite cells have distinct handles leaves every
    finite cell in exactly one of [three_one], [two_two] and [one_three]:
    the three vectors together are a rearrangement of the handles of the
    finite cells, no handle occurs twice in them, every handle of a finite
    cell occurs once over the three, and the three sizes add up to the
    number of finite cells (which the pass does not change). *)
Theorem classify_3_simplices_partition (D3 : Delaunay) :
  List.NoDup (map c_handle (finite_cells D3)) ->
  let r := classify_3_simplices D3
             {| three_one := []; two_two := []; one_three := [] |} in
  let s := snd r in
  Permutation (three_one s ++ two_two s ++ one_three s)
              (map c_handle (finite_cells D3)) /\
  List.NoDup (three_one s ++ two_two s ++ one_three s) /\
  (forall c, In c (finite_cells D3) ->
             (count_occ Nat.eq_dec (three_one s) (c_handle c)
              + count_occ Nat.eq_dec (two_two s) (c_handle c)
              + count_occ Nat.eq_dec (one_three s) (c_handle c) = 1)%nat) /\
  (length (three_one s) + length (two_two s) + length (one_three s)
   = number_of_finite_cells (fst r))%nat /\
  number_of_finite_cells (fst r) = number_of_finite_cells D3.
Proof.
  intros Hnd r s. subst s r. unfold classify_3_simplices.
  rewrite classify_fold. cbn [fst snd three_one two_two one_three app].
  pose proof (handles_of_partition (finite_cells D3)) as Hp.
  assert (Hnd' : List.NoDup (handles_of kind_31 (finite_cells D3)
                             ++ handles_of kind_22 (finite_cells D3)
                             ++ handles_of kind_13 (finite_cells D3))).
  { apply (Permutation_NoDup (Permutation_sym Hp) Hnd). }
  repeat split.
  - exact Hp.
  - exact Hnd'.
  - intros c Hc. rewrite <- Nat.add_assoc, <- !count_occ_app.
    rewrite (proj1 (Permutation_count_occ Nat.eq_dec _ _) Hp).
    apply NoDup_count_occ'; [exact Hnd|]. now apply in_map.
  - unfold number_of_finite_cells. cbn [finite_cells].
    rewrite <- Nat.add_assoc, <- !length_app.
    rewrite (Permutation_length Hp). apply length_map.
Qed.

(** C3.  For every finite cell the counter the classifier branches on is
    [max_count], the number of the cell's four vertices whose timeslice is
    the maximum of the cell.  After a pass (over cells with distinct
    handles) a cell with [max_count] 3 carries the tag 13 and is in
    [one_three], with 2 the tag 22 and is in [two_two], with 1 the tag 31
    and is in [three_one]; and each vector is the vector the caller
    supplied followed by the handles of its cells, in iteration order. *)
Theorem classify_3_simplices_by_max_count (D3 : Delaunay) (s : Simplices) :
  List.NoDup (map c_handle (finite_cells D3)) ->
  let r := classify_3_simplices D3 s in
  (forall c, In c (finite_cells D3) ->
     max_values (count_values c) = max_count c /\
     (max_count c = 3 ->
        cell_info (fst r) !! c_handle c = Some 13 /\
        In (c_handle c) (one_three (snd r))) /\
     (max_count c = 2 ->
        cell_info (fst r) !! c_handle c = Some 22 /\
        In (c_handle c) (two_two (snd r))) /\
     (max_count c = 1 ->
        cell_info (fst r) !! c_handle c = Some 31 /\
        In (c_handle c) (three_one (snd r)))) /\
  one_three (snd r)
  = one_three s ++ handles_of (fun c => max_count c =? 3) (finite_cells D3) /\
  two_two (snd r)
  = two_two s ++ handles_of (fun c => max_count c =? 2) (finite_cells D3) /\
  three_one (snd r)
  = three_one s
    ++ handles_of (fun c => negb (max_count c =? 3) && negb (max_count c =? 2))
         (finite_cells D3).
Proof.
  intros Hnd r. subst r. unfold classify_3_simplices.
  rewrite classify_fold. cbn [fst snd three_one two_two one_three cell_info].
  split; [|repeat split; reflexivity].
  intros c Hc. split; [apply count_values_max_count|].
  rewrite (tagged_lookup _ _ _ Hnd Hc).
  split; [|split]; intros Hk; rewrite Hk; (split; [reflexivity|]);
    apply in_or_app; right; apply in_handles_of; try exact Hc.
  - unfold kind_13. now rewrite Hk.
  - unfold kind_22. now rewrite Hk.
  - unfold kind_31. now rewrite Hk.
Qed.

Lemma NoDup_app_disjoint {A : Type} (l k : list A) (x : A) :
  List.NoDup (l ++ k) -> In x l -> ~ In x k.
Proof.
  induction l as [|a l IH]; intros Hnd Hl Hk; [destruct Hl|].
  cbn [app] in Hnd. apply NoDup_cons_iff in Hnd. destruct Hnd as [Ha Hnd].
  destruct Hl as [->|Hl]; [|now apply IH].
  apply Ha. apply in_or_app. now right.
Qed.

Lemma max_count_all_equal (c : Cell) :
  v_info (c_v1 c) = v_info (c_v0 c) ->
  v_info (c_v2 c) = v_info (c_v0 c) ->
  v_info (c_v3 c) = v_info (c_v0 c) ->
  max_count c = 4 /\ min_label c = max_label c.
Proof.
  intros H1 H2 H3. unfold max_count, cell_labels, indices, max_label, min_label.
  cbn [map vertex]. rewrite H1, H2, H3.
  rewrite !Z.max_id, !Z.min_id. cbn [count_occ].
  destruct (Z.eq_dec _ _); [split; reflexivity|congruence].
Qed.

(** C9.  In a pass over cells with distinct handles, a finite cell whose
    number of vertices on the maximum timeslice is neither 3 nor 2 takes
    the final branch: it is tagged 31 and its handle is appended to
    [three_one], and to neither other vector.  A cell whose four vertices
    share one timeslice is such a cell: its count is 4, and no vertex of
    it has a smaller timeslice. *)
Theorem classify_3_simplices_final_branch (D3 : Delaunay) (s : Simplices) (c : Cell) :
  List.NoDup (map c_handle (finite_cells D3)) ->
  In c (finite_cells D3) ->
  (max_values (count_values c) <> 3 /\ max_values (count_values c) <> 2) \/
  (v_info (c_v1 c) = v_info (c_v0 c) /\
   v_info (c_v2 c) = v_info (c_v0 c) /\
   v_info (c_v3 c) = v_info (c_v0 c)) ->
  let r := classify_3_simplices D3 s in
  cell_info (fst r) !! c_handle c = Some 31 /\
  In (c_handle c) (handles_of kind_31 (finite_cells D3)) /\
  three_one (snd r) = three_one s ++ handles_of kind_31 (finite_cells D3) /\
  ~ In (c_handle c) (handles_of kind_22 (finite_cells D3)) /\
  ~ In (c_handle c) (handles_of kind_13 (finite_cells D3)) /\
  (v_info (c_v1 c) = v_info (c_v0 c) ->
   v_info (c_v2 c) = v_info (c_v0 c) ->
   v_info (c_v3 c) = v_info (c_v0 c) ->
   max_values (count_values c) = 4 /\ min_label c = max_label c).
Proof.
  intros Hnd Hc Hcase r. subst r. unfold classify_3_simplices.
  rewrite classify_fold. cbn [fst snd three_one cell_info].
  rewrite (tagged_lookup _ _ _ Hnd Hc).
  assert (Hk : max_count c <> 3 /\ max_count c <> 2).
  { rewrite count_values_max_count in Hcase.
    destruct Hcase as [H|(H1 & H2 & H3)]; [exact H|].
    destruct (max_count_all_equal c H1 H2 H3) as [-> _]. lia. }
  destruct Hk as [Hk3 Hk2].
  assert (H31 : kind_31 c = true).
  { unfold kind_31. apply andb_true_intro.
    split; apply negb_true_iff, Z.eqb_neq; assumption. }
  pose proof (handles_of_partition (finite_cells D3)) as Hp.
  pose proof (Permutation_NoDup (Permutation_sym Hp) Hnd) as Hnd'.
  pose proof (in_handles_of kind_31 _ c Hc H31) as Hin.
  repeat split.
  - unfold tag_of. destruct (Z.eqb_spec (max_count c) 3); [contradiction|].
    destruct (Z.eqb_spec (max_count c) 2); [contradiction|reflexivity].
  - exact Hin.
  - intros H22. apply (NoDup_app_disjoint _ _ _ Hnd' Hin).
    apply in_or_app. now left.
  - intros H13. apply (NoDup_app_disjoint _ _ _ Hnd' Hin).
    apply in_or_app. now right.
  - rewrite count_values_max_count. now apply max_count_all_equal.
  - now apply max_count_all_equal.
Qed.

(** ** [classify_edges]: the edge tallies *)

(** C7, as the code has it.  Called with both counters at zero on a
    triangulation with fewer than [2 ^ 32] finite edges, [classify_edges]
    leaves the triangulation as it was, [N1_SL] is the number of finite
    edges whose two endpoint timeslices are equal, [N1_TL] the number of the
    others, and the two add up to the number of finite edges.  Edge by
    edge: equal endpoint timeslices increment [N1_SL] alone, unequal ones
    [N1_TL] alone. *)
Theorem classify_edges_from_zero (D3 : Delaunay) :
  number_of_finite_edges D3 < Unsigned.modulus ->
  let r := classify_edges D3 {| N1_TL := 0; N1_SL := 0 |} in
  fst r = D3 /\
  N1_SL (snd r) = number_of_spacelike_edges D3 /\
  N1_TL (snd r) = number_of_timelike_edges D3 /\
  N1_TL (snd r) + N1_SL (snd r) = number_of_finite_edges D3 /\
  (forall n e,
     classify_edge n e =
     if v_info (vertex (e_first e) (e_second e))
        =? v_info (vertex (e_first e) (e_third e))
     then {| N1_TL := N1_TL n; N1_SL := Unsigned.incr (N1_SL n) |}
     else {| N1_TL := Unsigned.incr (N1_TL n); N1_SL := N1_SL n |}).
Proof.
  intros Hsize r. subst r. unfold classify_edges. cbn [fst snd].
  assert (H0 : Unsigned.in_range 0)
    by (unfold Unsigned.in_range, Unsigned.modulus; lia).
  destruct (classify_edges_fold (finite_edges D3) {| N1_TL := 0; N1_SL := 0 |}
              H0 H0) as [Ht Hs].
  cbn [N1_TL N1_SL] in Ht, Hs. rewrite Z.add_0_l in Ht, Hs.
  pose proof (filter_length_le spacelike (finite_edges D3)) as Hle.
  pose proof (filter_negb_length spacelike (finite_edges D3)) as Hsum.
  unfold number_of_finite_edges, number_of_spacelike_edges,
    number_of_timelike_edges in *.
  rewrite UnsignedFacts.wrap_small in Ht, Hs by (unfold Unsigned.in_range; lia).
  rewrite Ht, Hs. repeat split; try reflexivity. lia.
Qed.

(** C10, as the code has it.  [classify_edges] adds to whatever the
    caller's counters hold: after the call each counter is its initial
    value plus the number of finite edges of its kind, reduced modulo
    [2 ^ 32].  When neither sum reaches [2 ^ 32] the counters are the exact
    sums, and then they add up to the number of finite edges exactly when
    both were zero at the call. *)
Theorem classify_edges_accumulates (D3 : Delaunay) (n : EdgeCounters) :
  Unsigned.in_range (N1_TL n) ->
  Unsigned.in_range (N1_SL n) ->
  let n' := snd (classify_edges D3 n) in
  N1_TL n' = Unsigned.wrap (N1_TL n + number_of_timelike_edges D3) /\
  N1_SL n' = Unsigned.wrap (N1_SL n + number_of_spacelike_edges D3) /\
  (N1_TL n + number_of_timelike_edges D3 < Unsigned.modulus ->
   N1_SL n + number_of_spacelike_edges D3 < Unsigned.modulus ->
   N1_TL n' = N1_TL n + number_of_timelike_edges D3 /\
   N1_SL n' = N1_SL n + number_of_spacelike_edges D3 /\
   (N1_TL n' + N1_SL n' = number_of_finite_edges D3 <->
    N1_TL n = 0 /\ N1_SL n = 0)).
Proof.
  intros Ht0 Hs0 n'. subst n'. unfold classify_edges. cbn [snd].
  destruct (classify_edges_fold (finite_edges D3) n Ht0 Hs0) as [Ht Hs].
  fold (number_of_timelike_edges D3) in Ht.
  fold (number_of_spacelike_edges D3) in Hs.
  rewrite Ht, Hs. split; [reflexivity|]. split; [reflexivity|].
  intros Hto Hso.
  pose proof (filter_negb_length spacelike (finite_edges D3)) as Hsum.
  unfold number_of_finite_edges, number_of_spacelike_edges,
    number_of_timelike_edges, Unsigned.in_range in *.
  rewrite !UnsignedFacts.wrap_small by (unfold Unsigned.in_range; lia).
  repeat split; lia.
Qed.

(** ** [fix_timeslices]: which vertex a pass removes *)

Lemma scan_vertex_max_vertex (c : Cell) (mv : Index) (s : Scan) (i : Index) :
  max_vertex_ok c mv s -> v_info (c_v0 c) <= max_time s ->
  max_vertex_ok c mv (scan_vertex c s i) /\
  v_info (c_v0 c) <= max_time (scan_vertex c s i).
Proof.
  intros Hok Hle. unfold max_vertex_ok, scan_vertex. rewrite Z.gtb_ltb.
  destruct (Z.ltb_spec (max_time s) (v_info (vertex c i)));
    cbn [max_time max_vertex]; split; auto; lia.
Qed.

Lemma scan_cell_max_vertex (c : Cell) (mv : Index) :
  v_info (vertex c (max_vertex (scan_cell c mv))) = max_label c \/
  (max_label c = v_info (c_v0 c) /\ max_vertex (scan_cell c mv) = mv).
Proof.
  rewrite <- (scan_cell_max_time c mv).
  unfold scan_cell, indices. cbn [fold_left].
  set (s0 := {| min_time := v_info (vertex c I0);
                max_time := v_info (vertex c I0); max_vertex := mv |}).
  assert (H0 : max_vertex_ok c mv s0 /\ v_info (c_v0 c) <= max_time s0).
  { split; [right; split; reflexivity | cbn; lia]. }
  destruct H0 as [Hok Hle].
  destruct (scan_vertex_max_vertex c mv _ I0 Hok Hle) as [Hok0 Hle0].
  destruct (scan_vertex_max_vertex c mv _ I1 Hok0 Hle0) as [Hok1 Hle1].
  destruct (scan_vertex_max_vertex c mv _ I2 Hok1 Hle1) as [Hok2 Hle2].
  destruct (scan_vertex_max_vertex c mv _ I3 Hok2 Hle2) as [Hok3 _].
  exact Hok3.
Qed.

(** When vertex 0 is on the maximum timeslice no index raises the maximum,
    and the scan hands back the [max_vertex] it was given. *)
Lemma scan_cell_keeps_max_vertex (c : Cell) (mv : Index) :
  max_label c = v_info (c_v0 c) -> max_vertex (scan_cell c mv) = mv.
Proof.
  intros Hmax.
  assert (Hle : forall i, v_info (vertex c i) <= v_info (c_v0 c)).
  { intros i. rewrite <- Hmax. unfold max_label. destruct i; cbn [vertex]; lia. }
  assert (Hstep : forall s i,
             max_time s = v_info (c_v0 c) -> max_vertex s = mv ->
             max_time (scan_vertex c s i) = v_info (c_v0 c) /\
             max_vertex (scan_vertex c s i) = mv).
  { intros s i Ht Hv. unfold scan_vertex. rewrite Z.gtb_ltb, Ht.
    destruct (Z.ltb_spec (v_info (c_v0 c)) (v_info (vertex c i))) as [H|H].
    - specialize (Hle i). lia.
    - cbn [max_time max_vertex]. now split. }
  unfold scan_cell, indices. cbn [fold_left].
  set (s0 := {| min_time := v_info (vertex c I0);
                max_time := v_info (vertex c I0); max_vertex := mv |}).
  destruct (Hstep s0 I0 eq_refl eq_refl) as [Ht0 Hv0].
  destruct (Hstep _ I1 Ht0 Hv0) as [Ht1 Hv1].
  destruct (Hstep _ I2 Ht1 Hv1) as [Ht2 Hv2].
  destruct (Hstep _ I3 Ht2 Hv2) as [_ Hv3].
  exact Hv3.
Qed.

Section EngineFacts.

Context {Point : Type} {Random : Type}.
Variable random_point_on_sphere : Z -> Random -> Point * Random.
Variable insert : Delaunay -> list (Point * Z) -> Delaunay.
Variable remove : Delaunay -> Vertex_handle -> Delaunay.

(** A pass of [fix_timeslices] is the engine's [remove] applied to the
    recorded vertices, in order. *)
Lemma fix_cells_removed (cs : list Cell) (D0 : Delaunay) (acc : list Vertex)
    (mv : Index) :
  fold_left (fix_cell remove) cs
    (fold_left remove (map v_handle acc) D0, mv)
  = (fold_left remove
       (map v_handle (fst (fold_left fix_cell_removed cs (acc, mv)))) D0,
     snd (fold_left fix_cell_removed cs (acc, mv))).
Proof.
  revert acc mv. induction cs as [|c cs IH]; intros acc mv; [reflexivity|].
  cbn [fold_left]. unfold fix_cell at 2, fix_cell_removed at 2 4.
  destruct (c_is_valid c); [|apply IH].
  destruct (bad_foliation (scan_cell c mv)); [|apply IH].
  rewrite <- IH. rewrite map_app, fold_left_app. reflexivity.
Qed.

Lemma fix_timeslices_removed_eq (D3 : Delaunay) (output : bool) :
  fix_timeslices remove D3 output
  = fold_left remove (map v_handle (fix_timeslices_removed D3)) D3.
Proof.
  unfold fix_timeslices, fix_timeslices_removed.
  change (D3, I0) with (fold_left remove (map v_handle []) D3, I0).
  now rewrite fix_cells_removed.
Qed.

(** A structurally invalid cell is passed over: nothing is removed, and
    [max_vertex] keeps its value. *)
Lemma fix_cell_invalid_untouched (D3 : Delaunay) (mv : Index) (c : Cell) :
  c_is_valid c = false -> fix_cell remove (D3, mv) c = (D3, mv).
Proof. intros H. unfold fix_cell. now rewrite H. Qed.

(** With [max_vertex] at its initial 0, as on the first cell of a pass,
    the vertex a bad cell loses is one on its maximum timeslice. *)
Lemma fix_cell_first_removes_max (D3 : Delaunay) (c : Cell) :
  c_is_valid c = true -> bad_foliation (scan_cell c I0) = true ->
  fix_cell remove (D3, I0) c
  = (remove D3 (v_handle (vertex c (max_vertex (scan_cell c I0)))),
     max_vertex (scan_cell c I0)) /\
  v_info (vertex c (max_vertex (scan_cell c I0))) = max_label c.
Proof.
  intros Hv Hb. unfold fix_cell. rewrite Hv, Hb. split; [reflexivity|].
  destruct (scan_cell_max_vertex c I0) as [H|[H ->]]; [exact H|].
  now rewrite H.
Qed.

End EngineFacts.

(** ** The repair loop *)

Lemma check_timeslices_cases (D3 : Delaunay) (output : bool) :
  (is_valid D3 = true /\
   check_timeslices D3 output
   = Ok (if invalid (count_timeslices D3) =? 0 then true else false)) \/
  (is_valid D3 = false /\
   check_timeslices D3 output = Abort AssertTriangulationValid).
Proof.
  unfold check_timeslices. destruct (is_valid D3); [left|right]; now split.
Qed.

(** The verdict depends on the finite cells and on [D3->is_valid()] alone:
    neither on the verbosity flag nor on the tags of the cells. *)
Lemma check_timeslices_same_cells (D3 D3' : Delaunay) (output output' : bool) :
  finite_cells D3' = finite_cells D3 -> is_valid D3' = is_valid D3 ->
  check_timeslices D3' output' = check_timeslices D3 output.
Proof.
  intros Hc Hv. unfold check_timeslices, count_timeslices. now rewrite Hc, Hv.
Qed.

Section RepairLoop.

Context {Point : Type} {Random : Type}.
Variable random_point_on_sphere : Z -> Random -> Point * Random.
Variable insert : Delaunay -> list (Point * Z) -> Delaunay.
Variable remove : Delaunay -> Vertex_handle -> Delaunay.

Lemma repair_loop_runs (fuel : nat) (D0 : Delaunay) (pass0 : Z) (output : bool) :
  0 <= pass0 <= MAX_FOLIATION_FIX_PASSES ->
  MAX_FOLIATION_FIX_PASSES + 1 - pass0 <= Z.of_nat fuel ->
  exists r, repair_loop remove fuel D0 pass0 output = Some r /\
            loop_outcome remove D0 pass0 output r.
Proof.
  unfold MAX_FOLIATION_FIX_PASSES.
  revert D0 pass0. induction fuel as [|fuel IH]; intros D0 pass0 Hp Hf; [lia|].
  cbn [repair_loop].
  destruct (check_timeslices D0 output) as [[|]|e] eqn:Hcheck.
  - eexists; split; [reflexivity|]. exists 0%nat. cbn [Nat.iter].
    unfold MAX_FOLIATION_FIX_PASSES. repeat split; [lia|]. left. split; [lia|assumption].
  - unfold Unsigned.incr.
    rewrite UnsignedFacts.wrap_small
      by (unfold Unsigned.in_range, Unsigned.modulus; lia).
    unfold MAX_FOLIATION_FIX_PASSES. rewrite Z.gtb_ltb.
    destruct (Z.ltb_spec 20 (pass0 + 1)) as [Hbreak|Hgo].
    + eexists; split; [reflexivity|]. exists 0%nat. cbn [Nat.iter].
      unfold MAX_FOLIATION_FIX_PASSES. repeat split; [lia|]. right.
      repeat split; [lia|lia|assumption].
    + destruct (IH (fix_timeslices remove D0 output) (pass0 + 1)) as (r & Hr & Hout);
        [lia|lia|].
      exists r. split; [exact Hr|].
      destruct r as [[D' pass]|e]; [|exact Hout].
      destruct Hout as (n & Hn & HD & Hend).
      exists (S n). unfold MAX_FOLIATION_FIX_PASSES in *.
      rewrite Nat.iter_succ_r, Nat2Z.inj_succ.
      repeat split; [lia|exact HD|].
      destruct Hend as [[Hpass Hc]|(Hpass & Hn' & Hc)];
        [left|right]; repeat split; (lia || assumption).
  - eexists; split; [reflexivity|]. cbn.
    destruct (check_timeslices_cases D0 output) as [[_ H]|[_ H]];
      rewrite H in Hcheck; congruence.
Qed.

(** Once the loop has ended on a triangulation, the rest of the builder
    runs to its end: the last verdict of the loop was returned by
    [check_timeslices], so the engine held the triangulation valid, and
    the classifier changes neither the cells nor that. *)
Lemma build_after_loop (fuel : nat) (D3 : Delaunay)
    (ps : @Points Point Random) (output : bool)
    (s : Simplices) (D' : Delaunay) (pass : Z) (b : bool) :
  repair_loop remove fuel (insert_into_S3 insert D3 (vertices ps) (timevalue ps))
    0 output = Some (Ok (D', pass)) ->
  check_timeslices D' output = Ok b ->
  build insert remove fuel D3 ps output s
  = Some (Ok {| u_D3 := fst (classify_3_simplices D' s);
                u_simplices := snd (classify_3_simplices D' s);
                u_pass := pass;
                u_valid := b;
                u_number_of_finite_cells := number_of_finite_cells D';
                u_random := random ps |}).
Proof.
  intros Hloop Hcheck. unfold build. rewrite Hloop.
  unfold classify_3_simplices. rewrite classify_fold.
  cbn [fst snd].
  rewrite (check_timeslices_same_cells D' _ output false) by reflexivity.
  rewrite Hcheck. cbn [bind is_valid].
  destruct (check_timeslices_cases D' output) as [[Hv _]|[_ H]];
    [|rewrite H in Hcheck; discriminate].
  rewrite Hv. reflexivity.
Qed.

End RepairLoop.

Section Builder.

Context {Point : Type} {Random : Type}.
Variable random_point_on_sphere : Z -> Random -> Point * Random.
Variable insert : Delaunay -> list (Point * Z) -> Delaunay.
Variable remove : Delaunay -> Vertex_handle -> Delaunay.

(** C5.  Whatever the engine, the inputs and the inserted points, the
    repair loop of [make_S3_triangulation] ends: with fuel for 21 tests
    of the loop condition the model never runs out.  It ends after [n]
    passes of [fix_timeslices] with [n <= 20], either because
    [check_timeslices] returned [true] (the counter is then [n]) or
    because the counter went past [MAX_FOLIATION_FIX_PASSES] after
    exactly 20 passes (the counter is then 21 and the verdict [false]).
    In both cases the builder goes on with the triangulation the loop
    ended on: it classifies it, reports the verdict and returns.  The only
    other end is the engine failing [assert(D3->is_valid())] inside
    [check_timeslices]. *)
Theorem repair_loop_bounded (fuel : nat) (D3 : Delaunay)
    (simplices timeslices : Z) (output : bool) (s : Simplices) (g : Random)
    (ps : @Points Point Random) :
  (21 <= fuel)%nat ->
  generate_points random_point_on_sphere simplices timeslices output g = Ok ps ->
  let D0 := insert_into_S3 insert D3 (vertices ps) (timevalue ps) in
  exists r,
    repair_loop remove fuel D0 0 output = Some r /\
    match r with
    | Abort e =>
        e = AssertTriangulationValid /\
        make_S3_triangulation random_point_on_sphere insert remove
          fuel D3 simplices timeslices output s g = Some (Abort e)
    | Ok (D', pass) =>
        exists (n : nat) (b : bool),
          (n <= 20)%nat /\
          D' = Nat.iter n (fun D => fix_timeslices remove D output) D0 /\
          check_timeslices D' output = Ok b /\
          (b = true -> pass = Z.of_nat n) /\
          (b = false -> pass = 21 /\ n = 20%nat) /\
          make_S3_triangulation random_point_on_sphere insert remove
            fuel D3 simplices timeslices output s g
          = Some (Ok {| u_D3 := fst (classify_3_simplices D' s);
                        u_simplices := snd (classify_3_simplices D' s);
                        u_pass := pass;
                        u_valid := b;
                        u_number_of_finite_cells := number_of_finite_cells D';
                        u_random := random ps |})
    end.
Proof.
  intros Hfuel Hgen D0.
  destruct (repair_loop_runs remove fuel D0 0 output) as (r & Hr & Hout).
  { unfold MAX_FOLIATION_FIX_PASSES. lia. }
  { unfold MAX_FOLIATION_FIX_PASSES. lia. }
  exists r. split; [exact Hr|].
  unfold make_S3_triangulation. rewrite Hgen.
  destruct r as [[D' pass]|e].
  - destruct Hout as (n & Hn & HD & Hend).
    unfold MAX_FOLIATION_FIX_PASSES in *.
    destruct Hend as [[Hpass Hc]|(Hpass & Hn' & Hc)].
    + exists n, true. repeat split; try (lia || assumption || discriminate).
      now apply build_after_loop.
    + exists n, false. repeat split; try (lia || assumption || discriminate).
      now apply build_after_loop.
  - split; [exact Hout|]. unfold build. fold D0. now rewrite Hr.
Qed.

(** *** The engine invariant: the triangulation stays valid *)

Section ValidEngine.

Hypothesis insert_valid :
  forall D l, is_valid D = true -> is_valid (insert D l) = true.
Hypothesis remove_valid :
  forall D v, is_valid D = true -> is_valid (remove D v) = true.

Lemma fix_timeslices_valid (D3 : Delaunay) (output : bool) :
  is_valid D3 = true -> is_valid (fix_timeslices remove D3 output) = true.
Proof using remove_valid.
  intros Hv. rewrite fix_timeslices_removed_eq.
  generalize (map v_handle (fix_timeslices_removed D3)).
  intros vs. revert D3 Hv.
  induction vs as [|v vs IH]; intros D3 Hv; [exact Hv|].
  cbn [fold_left]. apply IH. now apply remove_valid.
Qed.

Lemma repair_loop_no_abort (fuel : nat) (D0 : Delaunay) (pass : Z)
    (output : bool) (e : Error) :
  is_valid D0 = true ->
  repair_loop remove fuel D0 pass output <> Some (Abort e).
Proof using remove_valid.
  revert D0 pass. induction fuel as [|fuel IH]; intros D0 pass Hv;
    [discriminate|].
  cbn [repair_loop].
  destruct (check_timeslices_cases D0 output) as [[_ H]|[H _]];
    [|congruence].
  rewrite H. destruct (_ =? 0); [discriminate|].
  destruct (_ >? _); [discriminate|].
  apply IH. now apply fix_timeslices_valid.
Qed.

Lemma make_S3_triangulation_returns (fuel : nat) (D3 : Delaunay)
    (simplices timeslices : Z) (output : bool) (s : Simplices) (g : Random)
    (ps : @Points Point Random) :
  (21 <= fuel)%nat ->
  is_valid D3 = true ->
  generate_points random_point_on_sphere simplices timeslices output g = Ok ps ->
  exists u,
    make_S3_triangulation random_point_on_sphere insert remove
      fuel D3 simplices timeslices output s g = Some (Ok u).
Proof using insert_valid remove_valid.
  intros Hfuel Hvalid Hgen.
  set (D0 := insert_into_S3 insert D3 (vertices ps) (timevalue ps)).
  destruct (repair_loop_runs remove fuel D0 0 output) as (r & Hr & Hout).
  { unfold MAX_FOLIATION_FIX_PASSES. lia. }
  { unfold MAX_FOLIATION_FIX_PASSES. lia. }
  unfold make_S3_triangulation. rewrite Hgen.
  destruct r as [[D' pass]|e].
  - destruct Hout as (n & _ & _ & [[_ Hc]|(_ & _ & Hc)]);
      eexists; eapply build_after_loop; eassumption.
  - exfalso. revert Hr. apply repair_loop_no_abort.
    apply insert_valid. exact Hvalid.
Qed.

End ValidEngine.

End Builder.

(** ** Point generation *)

Lemma flat_map_repeat_length {A : Type} (f : nat -> A) (n : nat) (l : list nat) :
  length (flat_map (fun i => repeat (f i) n) l) = (n * length l)%nat.
Proof.
  induction l as [|i l IH]; cbn [flat_map length]; [lia|].
  rewrite length_app, repeat_length, IH. lia.
Qed.

Lemma concat_chunks_length {A B : Type} (P : list A -> B -> Prop) (n : nat)
    (chunks : list (list A)) (l : list B) :
  Forall2 (fun chunk i => length chunk = n /\ P chunk i) chunks l ->
  length (concat chunks) = (n * length l)%nat.
Proof.
  induction 1 as [|chunk i chunks l [Hlen _] _ IH]; cbn [concat length]; [lia|].
  rewrite length_app, Hlen, IH. lia.
Qed.

Section Generation.

Context {Point : Type} {Random : Type}.
Variable random_point_on_sphere : Z -> Random -> Point * Random.

Lemma make_2_sphere_loop_appends (n : nat) (radius : Z) (ps : Points) :
  let ps' := make_2_sphere_loop random_point_on_sphere n radius ps in
  timevalue ps' = timevalue ps ++ repeat (static_cast_unsigned radius) n /\
  exists new : list Point,
    vertices ps' = vertices ps ++ new /\
    length new = n /\ Forall (sampled_at random_point_on_sphere radius) new.
Proof.
  revert ps. induction n as [|n IH]; intros ps; cbn [make_2_sphere_loop repeat].
  - split; [now rewrite app_nil_r|]. exists []. now rewrite app_nil_r.
  - destruct (random_point_on_sphere radius (random ps)) as [p g] eqn:Hdraw.
    destruct (IH {| vertices := push_back (vertices ps) p;
                    timevalue := push_back (timevalue ps)
                                   (static_cast_unsigned radius);
                    random := g |}) as (Ht & new & Hv & Hlen & Hall).
    cbn [vertices timevalue] in Ht, Hv. unfold push_back in Ht, Hv.
    rewrite <- app_assoc in Ht, Hv. cbn [app] in Ht, Hv.
    split; [exact Ht|]. exists (p :: new). repeat split.
    + exact Hv.
    + cbn [length]. now rewrite Hlen.
    + constructor; [|exact Hall]. exists (random ps). now rewrite Hdraw.
Qed.

(** Called with a count of 0, [make_2_sphere] appends nothing. *)
Lemma make_2_sphere_zero (ps : Points) (radius : Z) (output : bool) :
  make_2_sphere random_point_on_sphere ps 0 radius output = ps.
Proof. reflexivity. Qed.

Lemma make_spheres_fold (points : Z) (output : bool) (len start : nat)
    (ps : Points) :
  0 <= points < 2 ^ 31 ->
  let ps' :=
    fold_left
      (fun ps i => make_2_sphere random_point_on_sphere ps points
                     (1 + Z.of_nat i) output)
      (seq start len) ps in
  timevalue ps'
  = timevalue ps
    ++ flat_map (fun i => repeat (static_cast_unsigned (1 + Z.of_nat i))
                            (Z.to_nat points))
         (seq start len) /\
  exists chunks : list (list Point),
    vertices ps' = vertices ps ++ concat chunks /\
    Forall2 (fun chunk i => length chunk = Z.to_nat points /\
                            Forall (sampled_at random_point_on_sphere (1 + Z.of_nat i)) chunk)
            chunks (seq start len).
Proof.
  intros Hpoints. revert start ps.
  induction len as [|len IH]; intros start ps; cbn [seq fold_left flat_map].
  - split; [now rewrite app_nil_r|]. exists []. split; [now rewrite app_nil_r|].
    constructor.
  - unfold make_2_sphere at 2 4, Unsigned.int_to_size_t.
    rewrite (Z.mod_small points) by lia.
    destruct (make_2_sphere_loop_appends (Z.to_nat points)
                (1 + Z.of_nat start) ps) as (Ht1 & new & Hv1 & Hlen1 & Hall1).
    destruct (IH (S start)
                (make_2_sphere_loop random_point_on_sphere (Z.to_nat points)
                   (1 + Z.of_nat start) ps)) as (Ht & chunks & Hv & Hall).
    split.
    + rewrite Ht, Ht1. now rewrite <- app_assoc.
    + exists (new :: chunks). split.
      * rewrite Hv, Hv1. cbn [concat]. now rewrite <- app_assoc.
      * constructor; [now split|exact Hall].
Qed.

Lemma generate_points_configuration (simplices timeslices : Z) (output : bool)
    (g : Random) :
  0 < timeslices -> simplices / timeslices = 0 ->
  generate_points random_point_on_sphere simplices timeslices output g
  = Abort AssertSimplicesPerTimeslice.
Proof.
  intros Ht Hq. unfold generate_points.
  destruct (Z.eqb_spec timeslices 0); [lia|]. cbn [negb assert bind].
  rewrite Hq. reflexivity.
Qed.

Lemma generate_points_proceeds (simplices timeslices : Z) (output : bool)
    (g : Random) :
  1 <= simplices / timeslices ->
  simplices / timeslices * 4 < 2 ^ 31 ->
  Unsigned.wrap (simplices / timeslices * 4 * timeslices) < 2 ^ 31 ->
  generate_points random_point_on_sphere simplices timeslices output g
  = Ok (make_spheres random_point_on_sphere timeslices
          (simplices / timeslices * 4) output
          {| vertices := []; timevalue := []; random := g |}).
Proof.
  intros Hq Hp Htotal.
  assert (Hw : Unsigned.wrap (simplices / timeslices * 4)
               = simplices / timeslices * 4).
  { apply UnsignedFacts.wrap_small. unfold Unsigned.in_range, Unsigned.modulus. lia. }
  assert (Hpoints : Unsigned.to_int (Unsigned.wrap (simplices / timeslices * 4))
                    = simplices / timeslices * 4).
  { rewrite Hw. unfold Unsigned.to_int.
    destruct (Z.ltb_spec (simplices / timeslices * 4) (2 ^ 31)); [reflexivity|lia]. }
  assert (Hreserve :
            reserve (Unsigned.to_int
                       (Unsigned.wrap (simplices / timeslices * 4 * timeslices)))
            = Ok tt).
  { pose proof (UnsignedFacts.wrap_in_range (simplices / timeslices * 4 * timeslices)) as Hr.
    unfold Unsigned.in_range in Hr. unfold Unsigned.to_int, reserve, assert.
    destruct (Z.ltb_spec (Unsigned.wrap (simplices / timeslices * 4 * timeslices))
                (2 ^ 31)); [|lia].
    destruct (Z.leb_spec 0 (Unsigned.wrap (simplices / timeslices * 4 * timeslices)));
      [reflexivity|lia]. }
  unfold generate_points.
  destruct (Z.eqb_spec timeslices 0) as [->|_].
  { rewrite Z.div_0_r in Hq. lia. }
  destruct (Z.geb_spec (simplices / timeslices) 1); [|lia].
  rewrite Hpoints, Hw, Hreserve. reflexivity.
Qed.

End Generation.

Section Universe.

Context {Point : Type} {Random : Type}.
Variable random_point_on_sphere : Z -> Random -> Point * Random.
Variable insert : Delaunay -> list (Point * Z) -> Delaunay.
Variable remove : Delaunay -> Vertex_handle -> Delaunay.

(** C8, as the code has it.  When at least one simplex per timeslice is
    asked for, the count [points = (simplices / timeslices) * 4] fits an
    [int] and the reserved total does not come out negative, the
    generation returns, and for every timeslice index [i] below
    [timeslices], in order, it has appended exactly [points] pairs: the
    timevalues are [points] copies of [i + 1] and the points are [points]
    draws of the generator of radius [1 + i].  Both vectors end with
    [points * timeslices] entries.  A count of 0 makes [make_2_sphere]
    append nothing. *)
Theorem generate_points_per_timeslice (simplices timeslices : Z)
    (output : bool) (g : Random) :
  Unsigned.in_range timeslices ->
  1 <= simplices / timeslices ->
  simplices / timeslices * 4 < 2 ^ 31 ->
  Unsigned.wrap (simplices / timeslices * 4 * timeslices) < 2 ^ 31 ->
  let points := simplices / timeslices * 4 in
  exists ps : Points,
    generate_points random_point_on_sphere simplices timeslices output g = Ok ps /\
    timevalue ps
    = flat_map (fun i => repeat (Z.of_nat i + 1) (Z.to_nat points))
        (seq 0 (Z.to_nat timeslices)) /\
    (exists chunks : list (list Point),
       vertices ps = concat chunks /\
       Forall2 (fun chunk i =>
                  length chunk = Z.to_nat points /\
                  Forall (sampled_at random_point_on_sphere (1 + Z.of_nat i)) chunk)
               chunks (seq 0 (Z.to_nat timeslices))) /\
    Z.of_nat (length (vertices ps)) = points * timeslices /\
    Z.of_nat (length (timevalue ps)) = points * timeslices /\
    (forall (ps0 : Points) (radius : Z),
       make_2_sphere random_point_on_sphere ps0 0 radius output = ps0).
Proof.
  intros Hts Hq Hp Htotal points.
  rewrite (generate_points_proceeds _ _ _ _ _ Hq Hp Htotal). fold points.
  eexists. split; [reflexivity|].
  assert (Hpoints : 0 <= points < 2 ^ 31) by (subst points; lia).
  destruct (make_spheres_fold random_point_on_sphere points output
              (Z.to_nat timeslices) 0
              {| vertices := []; timevalue := []; random := g |} Hpoints)
    as (Ht & chunks & Hv & Hall).
  fold (make_spheres random_point_on_sphere timeslices points output
          {| vertices := []; timevalue := []; random := g |}) in Ht, Hv.
  cbn [vertices timevalue app] in Ht, Hv.
  assert (Hlabels :
            flat_map (fun i => repeat (static_cast_unsigned (1 + Z.of_nat i))
                                 (Z.to_nat points))
              (seq 0 (Z.to_nat timeslices))
            = flat_map (fun i => repeat (Z.of_nat i + 1) (Z.to_nat points))
                (seq 0 (Z.to_nat timeslices))).
  { rewrite !flat_map_concat_map. f_equal. apply map_ext_in.
    intros i Hi. apply in_seq in Hi. f_equal.
    unfold static_cast_unsigned. rewrite UnsignedFacts.wrap_small; [lia|].
    unfold Unsigned.in_range in *. lia. }
  assert (Hts0 : 0 <= timeslices) by (unfold Unsigned.in_range in Hts; lia).
  repeat split.
  - now rewrite Ht, Hlabels.
  - exists chunks. now split.
  - rewrite Hv, (concat_chunks_length _ _ _ _ Hall), length_seq. lia.
  - rewrite Ht, flat_map_repeat_length, length_seq. lia.
Qed.

Section ValidEngine.

Hypothesis insert_valid :
  forall D l, is_valid D = true -> is_valid (insert D l) = true.
Hypothesis remove_valid :
  forall D v, is_valid D = true -> is_valid (remove D v) = true.

(** C6, as the code has it.  On an engine that keeps the triangulation
    valid, for a positive [timeslices] and a point count that neither
    overflows the [int] it is kept in nor makes the reserved total
    negative, [make_S3_triangulation] fails exactly when the integer
    quotient [simplices / timeslices] is 0, and it then fails at
    [assert(simplices_per_timeslice >= 1)]; whenever the quotient is
    at least 1 the construction runs to its end. *)
Theorem make_S3_triangulation_configuration (fuel : nat) (D3 : Delaunay)
    (simplices timeslices : Z) (output : bool) (s : Simplices) (g : Random) :
  (21 <= fuel)%nat ->
  is_valid D3 = true ->
  Unsigned.in_range simplices ->
  0 < timeslices ->
  simplices / timeslices * 4 < 2 ^ 31 ->
  Unsigned.wrap (simplices / timeslices * 4 * timeslices) < 2 ^ 31 ->
  let r := make_S3_triangulation random_point_on_sphere insert remove
             fuel D3 simplices timeslices output s g in
  (simplices / timeslices = 0 ->
   r = Some (Abort AssertSimplicesPerTimeslice)) /\
  (1 <= simplices / timeslices -> exists u, r = Some (Ok u)) /\
  ((exists e, r = Some (Abort e)) <-> simplices / timeslices = 0).
Proof using insert_valid remove_valid.
  intros Hfuel Hvalid Hs Hts Hp Htotal r.
  assert (Hq : 0 <= simplices / timeslices).
  { apply Z.div_pos; [unfold Unsigned.in_range in Hs|]; lia. }
  assert (Hfail : simplices / timeslices = 0 ->
                  r = Some (Abort AssertSimplicesPerTimeslice)).
  { intros H0. subst r. unfold make_S3_triangulation.
    now rewrite generate_points_configuration. }
  assert (Hrun : 1 <= simplices / timeslices -> exists u, r = Some (Ok u)).
  { intros H1.
    pose proof (generate_points_proceeds random_point_on_sphere
                  _ _ output g H1 Hp Htotal) as Hgen.
    subst r.
    exact (make_S3_triangulation_returns random_point_on_sphere insert
             remove insert_valid remove_valid fuel D3 simplices timeslices
             output s g _ Hfuel Hvalid Hgen). }
  split; [exact Hfail|]. split; [exact Hrun|]. split.
  - intros [e He].
    destruct (Z.eq_dec (simplices / timeslices) 0) as [H0|H0]; [exact H0|].
    destruct Hrun as [u Hu]; [lia|]. congruence.
  - intros H0. eexists. now apply Hfail.
Qed.

End ValidEngine.

End Universe.

(** ** The pipeline on the small engine *)

Lemma toy_insert_valid (D : Delaunay) (l : list (Toy.Point * Z)) :
  is_valid D = true -> is_valid (Toy.insert D l) = true.
Proof. intros H. exact H. Qed.

Lemma toy_remove_valid (D : Delaunay) (v : Vertex_handle) :
  is_valid D = true -> is_valid (Toy.remove D v) = true.
Proof. intros H. exact H. Qed.

Lemma toy_remove_nothing_valid (D : Delaunay) (v : Vertex_handle) :
  is_valid D = true -> is_valid (Toy.remove_nothing D v) = true.
Proof. intros H. exact H. Qed.

Ltac in_range_tac :=
  unfold Unsigned.in_range, Unsigned.modulus; lia.

Lemma in_rangeb_in_range (z : Z) : in_rangeb z = true -> Unsigned.in_range z.
Proof.
  unfold in_rangeb, Unsigned.in_range. intros H.
  apply andb_prop in H. destruct H as [H0 H1].
  apply Z.leb_le in H0. apply Z.ltb_lt in H1. now split.
Qed.

Lemma labels_in_rangeb_all (cs : list Cell) :
  forallb labels_in_rangeb cs = true -> Forall labels_in_range cs.
Proof.
  intros H. apply List.Forall_forall. intros c Hc.
  rewrite forallb_forall in H. specialize (H c Hc).
  unfold labels_in_rangeb in H. rewrite forallb_forall in H.
  apply List.Forall_forall. intros z Hz. apply in_rangeb_in_range. now apply H.
Qed.

Ltac labels_tac := apply labels_in_rangeb_all; vm_compute; reflexivity.

Ltac nodup_tac :=
  cbn; repeat (apply List.NoDup_cons; [cbn; intuition discriminate|]);
  apply List.NoDup_nil.

(** C1.  On [Toy.late_then_early] the first cell, (1,1,1,2), is well
    foliated and leaves [max_vertex] at 3.  The second cell, (5,3,3,3), is
    structurally valid and spans two timeslices; its maximum 5 sits at
    index 0, no index raises the maximum, [max_vertex] is still 3, and the
    pass removes the vertex at index 3, whose timeslice is 3, instead of
    the vertex on the maximum timeslice. *)
Theorem fix_timeslices_removes_stale_index :
  finite_cells Toy.late_then_early = [Toy.cell 0 1 1 1 2 true; Toy.early_max] /\
  c_is_valid Toy.early_max = true /\
  cell_labels Toy.early_max = [5; 3; 3; 3] /\
  max_label Toy.early_max = 5 /\ min_label Toy.early_max = 3 /\
  fix_timeslices_removed Toy.late_then_early = [vertex Toy.early_max I3] /\
  v_info (vertex Toy.early_max I3) = 3 /\
  v_info (vertex Toy.early_max I3) <> max_label Toy.early_max /\
  fix_timeslices Toy.remove Toy.late_then_early false
  = Toy.remove Toy.late_then_early (v_handle (vertex Toy.early_max I3)).
Proof. repeat split; discriminate. Qed.

(** [Toy.mixed] has cells with distinct handles; from empty vectors the
    five cells are spread 2 + 1 + 2 over the three vectors. *)
Lemma classify_3_simplices_partition_witness :
  List.NoDup (map c_handle (finite_cells Toy.mixed)) /\
  let s := snd (classify_3_simplices Toy.mixed Toy.no_simplices) in
  (length (three_one s) + length (two_two s) + length (one_three s) = 5)%nat /\
  Permutation (three_one s ++ two_two s ++ one_three s) [0; 1; 2; 3; 4]%nat.
Proof.
  assert (H : List.NoDup (map c_handle (finite_cells Toy.mixed))) by nodup_tac.
  split; [exact H|].
  destruct (classify_3_simplices_partition Toy.mixed H)
    as (Hperm & _ & _ & Hlen & Hsame).
  split; [rewrite Hsame in Hlen; exact Hlen | exact Hperm].
Defined.

Lemma classify_3_simplices_by_max_count_witness :
  List.NoDup (map c_handle (finite_cells Toy.mixed)) /\
  let r := classify_3_simplices Toy.mixed Toy.no_simplices in
  one_three (snd r) = [2%nat] /\ two_two (snd r) = [1%nat] /\
  three_one (snd r) = [0; 3; 4]%nat.
Proof.
  assert (H : List.NoDup (map c_handle (finite_cells Toy.mixed))) by nodup_tac.
  split; [exact H|].
  destruct (classify_3_simplices_by_max_count Toy.mixed Toy.no_simplices H)
    as (_ & H13 & H22 & H31).
  cbv zeta. rewrite H13, H22, H31. repeat split.
Defined.

(** The cell (2,2,2,2) of [Toy.mixed]: four vertices on the maximum
    timeslice, tagged 31. *)
Lemma classify_3_simplices_final_branch_witness :
  List.NoDup (map c_handle (finite_cells Toy.mixed)) /\
  In (Toy.cell 3 2 2 2 2 true) (finite_cells Toy.mixed) /\
  max_values (count_values (Toy.cell 3 2 2 2 2 true)) = 4 /\
  cell_info (fst (classify_3_simplices Toy.mixed Toy.no_simplices))
    !! c_handle (Toy.cell 3 2 2 2 2 true)
  = Some 31.
Proof.
  pose (c := Toy.cell 3 2 2 2 2 true).
  assert (H : List.NoDup (map c_handle (finite_cells Toy.mixed))) by nodup_tac.
  assert (Hin : In c (finite_cells Toy.mixed)) by (cbn; tauto).
  split; [exact H|]. split; [exact Hin|].
  destruct (classify_3_simplices_final_branch Toy.mixed Toy.no_simplices c H Hin)
    as (Htag & _ & _ & _ & _ & Hfour).
  { right. repeat split. }
  split; [apply Hfour; reflexivity | exact Htag].
Defined.

Lemma check_timeslices_witness :
  Forall labels_in_range (finite_cells Toy.foliated) /\
  Z.of_nat (number_of_finite_cells Toy.foliated) < Unsigned.modulus /\
  is_valid Toy.foliated = true /\
  check_timeslices Toy.foliated false = Ok true.
Proof.
  assert (H1 : Forall labels_in_range (finite_cells Toy.foliated)) by labels_tac.
  assert (H2 : Z.of_nat (number_of_finite_cells Toy.foliated) < Unsigned.modulus)
    by (vm_compute; reflexivity).
  split; [exact H1|]. split; [exact H2|]. split; [reflexivity|].
  destruct (check_timeslices_true_iff_no_invalid_cell Toy.foliated false H1 H2 eq_refl)
    as (b & Hb & Hiff & _).
  rewrite Hb. f_equal. apply Hiff. reflexivity.
Defined.

(** On [Toy.mixed] the verdict is [false]: cell 3 spans no timeslice and
    cell 4 is structurally invalid. *)
Example check_timeslices_mixed :
  check_timeslices Toy.mixed false = Ok false /\
  number_of_invalid_cells Toy.mixed = 2%nat.
Proof. split; reflexivity. Qed.

(** With an engine whose [remove] repairs nothing the bound is exhausted
    after 20 passes; the builder still classifies the five cells and
    reports an invalid foliation. *)
Lemma repair_loop_bounded_witness :
  (21 <= 21)%nat /\
  (exists ps, generate_points Toy.random_point_on_sphere 2 2 false 0%nat = Ok ps) /\
  exists u,
    make_S3_triangulation Toy.random_point_on_sphere Toy.insert Toy.remove_nothing
      21 Toy.empty 2 2 false Toy.no_simplices 0%nat = Some (Ok u) /\
    u_pass u = 21 /\ u_valid u = false /\
    u_simplices u
    = {| three_one := [0; 1; 4]%nat; two_two := [2%nat]; one_three := [3%nat] |}.
Proof.
  split; [lia|]. split; [eexists; reflexivity|].
  destruct (repair_loop_bounded Toy.random_point_on_sphere Toy.insert
              Toy.remove_nothing 21 Toy.empty 2 2 false Toy.no_simplices 0%nat
              _ (le_n 21) eq_refl) as (r & Hr & Hout).
  vm_compute in Hr. injection Hr as <-.
  destruct Hout as (n & b & _ & _ & Hcheck & _ & _ & Hmake).
  vm_compute in Hcheck. injection Hcheck as <-.
  eexists. split; [exact Hmake|]. repeat split.
Defined.

(** Two simplices over four timeslices: the quotient is 0 and the builder
    stops at its first assertion. *)
Lemma make_S3_triangulation_configuration_witness :
  (21 <= 21)%nat /\ is_valid Toy.empty = true /\
  Unsigned.in_range 2 /\ 0 < 4 /\ 2 / 4 = 0 /\
  make_S3_triangulation Toy.random_point_on_sphere Toy.insert Toy.remove
    21 Toy.empty 2 4 false Toy.no_simplices 0%nat
  = Some (Abort AssertSimplicesPerTimeslice).
Proof.
  assert (Hr : Unsigned.in_range 2) by in_range_tac.
  split; [lia|]. split; [reflexivity|]. split; [exact Hr|].
  split; [lia|]. split; [reflexivity|].
  destruct (make_S3_triangulation_configuration Toy.random_point_on_sphere
              Toy.insert Toy.remove toy_insert_valid toy_remove_valid
              21 Toy.empty 2 4 false Toy.no_simplices 0%nat
              (le_n 21) eq_refl Hr eq_refl eq_refl eq_refl) as (Hfail & _ & _).
  apply Hfail. reflexivity.
Defined.

(** Two simplices over two timeslices: the construction runs to its end. *)
Example make_S3_triangulation_two_timeslices :
  exists u,
    make_S3_triangulation Toy.random_point_on_sphere Toy.insert Toy.remove
      21 Toy.empty 2 2 false Toy.no_simplices 0%nat = Some (Ok u) /\
    u_valid u = true /\
    (length (three_one (u_simplices u)) + length (two_two (u_simplices u))
     + length (one_three (u_simplices u)))%nat = u_number_of_finite_cells u.
Proof. eexists. repeat split. Qed.

(** C6, a quotient of 1 that does not proceed: with [simplices] and
    [timeslices] both [2 ^ 29] there are 4 points per timeslice and the
    total [4 * 2 ^ 29 = 2 ^ 31] is negative as an [int]; [reserve] throws
    before any point is generated. *)
Lemma make_S3_triangulation_length_error :
  536870912 / 536870912 = 1 /\
  make_S3_triangulation Toy.random_point_on_sphere Toy.insert Toy.remove
    21 Toy.empty 536870912 536870912 false Toy.no_simplices 0%nat
  = Some (Abort LengthError).
Proof. split; reflexivity. Qed.

Lemma classify_edges_from_zero_witness :
  number_of_finite_edges Toy.both_edges < Unsigned.modulus /\
  let n := snd (classify_edges Toy.both_edges {| N1_TL := 0; N1_SL := 0 |}) in
  N1_TL n = 2 /\ N1_SL n = 1 /\ N1_TL n + N1_SL n = 3.
Proof.
  assert (H : number_of_finite_edges Toy.both_edges < Unsigned.modulus)
    by (vm_compute; reflexivity).
  split; [exact H|].
  destruct (classify_edges_from_zero Toy.both_edges H)
    as (_ & Hs & Ht & Hsum & _).
  cbv zeta. rewrite Ht, Hs. repeat split.
Defined.

(** C7, counters that do not start at zero: one finite edge, spacelike;
    the caller's counters hold 1 and 0; after the call they hold 1 and 1,
    which add up to 2. *)
Lemma classify_edges_keeps_initial_counts :
  number_of_finite_edges Toy.one_spacelike_edge = 1 /\
  snd (classify_edges Toy.one_spacelike_edge Toy.one_and_zero)
  = {| N1_TL := 1; N1_SL := 1 |} /\
  N1_TL (snd (classify_edges Toy.one_spacelike_edge Toy.one_and_zero))
  + N1_SL (snd (classify_edges Toy.one_spacelike_edge Toy.one_and_zero))
  <> number_of_finite_edges Toy.one_spacelike_edge.
Proof. repeat split. discriminate. Qed.

Lemma classify_edges_accumulates_witness :
  Unsigned.in_range 5 /\ Unsigned.in_range 7 /\
  let n := snd (classify_edges Toy.both_edges {| N1_TL := 5; N1_SL := 7 |}) in
  N1_TL n = 7 /\ N1_SL n = 8.
Proof.
  assert (H5 : Unsigned.in_range 5) by in_range_tac.
  assert (H7 : Unsigned.in_range 7) by in_range_tac.
  split; [exact H5|]. split; [exact H7|].
  destruct (classify_edges_accumulates Toy.both_edges
              {| N1_TL := 5; N1_SL := 7 |} H5 H7) as (Ht & Hs & _).
  cbv zeta. rewrite Ht, Hs. split; reflexivity.
Defined.

(** C10, a counter at the top of its range: one finite edge, timelike; the
    caller's counters hold [2 ^ 32 - 1] and 1.  The increment wraps
    [N1_TL] to 0, so the counters after the call add up to the number of
    finite edges although neither was zero at the call, and [N1_TL] is not
    its initial value plus the number of timelike edges. *)
Lemma classify_edges_wraps :
  Unsigned.in_range (N1_TL Toy.top_and_one) /\
  Unsigned.in_range (N1_SL Toy.top_and_one) /\
  number_of_timelike_edges Toy.one_timelike_edge = 1 /\
  snd (classify_edges Toy.one_timelike_edge Toy.top_and_one)
  = {| N1_TL := 0; N1_SL := 1 |} /\
  N1_TL (snd (classify_edges Toy.one_timelike_edge Toy.top_and_one))
  <> N1_TL Toy.top_and_one + number_of_timelike_edges Toy.one_timelike_edge /\
  N1_TL (snd (classify_edges Toy.one_timelike_edge Toy.top_and_one))
  + N1_SL (snd (classify_edges Toy.one_timelike_edge Toy.top_and_one))
  = number_of_finite_edges Toy.one_timelike_edge /\
  ~ (N1_TL Toy.top_and_one = 0 /\ N1_SL Toy.top_and_one = 0).
Proof.
  repeat split; try discriminate.
  intros [H _]. discriminate H.
Qed.

Lemma generate_points_per_timeslice_witness :
  Unsigned.in_range 2 /\ 1 <= 2 / 2 /\ 2 / 2 * 4 < 2 ^ 31 /\
  Unsigned.wrap (2 / 2 * 4 * 2) < 2 ^ 31 /\
  exists ps,
    generate_points Toy.random_point_on_sphere 2 2 false 0%nat = Ok ps /\
    timevalue ps = [1; 1; 1; 1; 2; 2; 2; 2] /\
    Z.of_nat (length (vertices ps)) = 8.
Proof.
  assert (Hr : Unsigned.in_range 2) by in_range_tac.
  assert (Hq : 1 <= 2 / 2) by (vm_compute; discriminate).
  assert (Hp : 2 / 2 * 4 < 2 ^ 31) by (vm_compute; reflexivity).
  assert (Ht : Unsigned.wrap (2 / 2 * 4 * 2) < 2 ^ 31) by (vm_compute; reflexivity).
  repeat (split; [assumption|]).
  destruct (generate_points_per_timeslice Toy.random_point_on_sphere 2 2 false
              0%nat Hr Hq Hp Ht) as (ps & Hgen & Htv & _ & Hlen & _).
  exists ps. split; [exact Hgen|]. split; [exact Htv | exact Hlen].
Defined.

(** C8, a count that overflows: [2 ^ 30] simplices on one timeslice give
    [2 ^ 30 * 4 = 2 ^ 32] points per timeslice, which is 0 as an
    [unsigned]; the generation appends nothing. *)
Lemma generate_points_overflow :
  Unsigned.in_range 1073741824 /\ Unsigned.in_range 1 /\
  1073741824 / 1 * 4 = 4294967296 /\
  exists ps,
    generate_points Toy.random_point_on_sphere 1073741824 1 false 0%nat = Ok ps /\
    vertices ps = [] /\ timevalue ps = [] /\
    Z.of_nat (length (timevalue ps)) <> 1073741824 / 1 * 4 * 1.
Proof.
  split; [in_range_tac|]. split; [in_range_tac|]. split; [reflexivity|].
  eexists. split; [reflexivity|]. repeat split. discriminate.
Qed.

(** ** Further properties of the classifier *)

(** Once a handle is written by a pass, what the pass leaves under it does
    not depend on the tags that were there before. *)
Lemma tagged_lookup_written (cs : list Cell) (m m' : gmap Cell_handle Z)
    (h : Cell_handle) :
  In h (map c_handle cs) -> tagged cs m !! h = tagged cs m' !! h.
Proof.
  revert m m'. induction cs as [|c cs IH]; intros m m' Hin; [destruct Hin|].
  cbn [tagged fold_left]. fold (tagged cs).
  destruct (in_dec Nat.eq_dec h (map c_handle cs)) as [Hcs|Hcs].
  - now apply IH.
  - destruct Hin as [Hh|Hin]; [|contradiction].
    rewrite !tagged_lookup_other by exact Hcs.
    rewrite <- Hh. now rewrite !lookup_insert_eq.
Qed.

Lemma tagged_idempotent (cs : list Cell) (m : gmap Cell_handle Z) :
  tagged cs (tagged cs m) = tagged cs m.
Proof.
  apply map_eq. intros h.
  destruct (in_dec Nat.eq_dec h (map c_handle cs)) as [Hcs|Hcs].
  - now apply tagged_lookup_written.
  - now rewrite !tagged_lookup_other.
Qed.

Lemma handles_of_sizes (cs : list Cell) :
  (length (handles_of kind_31 cs) + length (handles_of kind_22 cs)
   + length (handles_of kind_13 cs) = length cs)%nat.
Proof.
  rewrite <- Nat.add_assoc, <- !length_app.
  rewrite (Permutation_length (handles_of_partition cs)). apply length_map.
Qed.

(** X1.  [reclassify_3_simplices] does not depend on what the three
    vectors held, leaves them with one handle per finite cell, and
    repeating it changes nothing, neither the vectors nor the tags. *)
Theorem reclassify_3_simplices_idempotent (D3 : Delaunay) (s s' : Simplices) :
  let r := reclassify_3_simplices D3 s in
  reclassify_3_simplices (fst r) (snd r) = r /\
  snd (reclassify_3_simplices D3 s') = snd r /\
  sizes (snd r) = number_of_finite_cells D3.
Proof.
  intros r. subst r. unfold reclassify_3_simplices, classify_3_simplices.
  rewrite !classify_fold. cbn [fst snd finite_cells finite_edges cell_info is_valid].
  rewrite ?classify_fold. cbn [finite_cells finite_edges cell_info is_valid].
  rewrite tagged_idempotent. repeat split.
  unfold sizes, number_of_finite_cells. cbn [three_one two_two one_three app].
  apply handles_of_sizes.
Qed.

(** X2.  [classify_3_simplices] appends to the vectors it is given: after a
    call they hold as many handles more as there are finite cells, and a
    second call on the result, without clearing, lists every cell a second
    time. *)
Theorem classify_3_simplices_appends (D3 : Delaunay) (s : Simplices) :
  let r := classify_3_simplices D3 s in
  let r2 := classify_3_simplices (fst r) (snd r) in
  sizes (snd r) = (sizes s + number_of_finite_cells D3)%nat /\
  sizes (snd r2) = (sizes s + 2 * number_of_finite_cells D3)%nat /\
  three_one (snd r2)
  = three_one s ++ handles_of kind_31 (finite_cells D3)
              ++ handles_of kind_31 (finite_cells D3) /\
  two_two (snd r2)
  = two_two s ++ handles_of kind_22 (finite_cells D3)
            ++ handles_of kind_22 (finite_cells D3) /\
  one_three (snd r2)
  = one_three s ++ handles_of kind_13 (finite_cells D3)
              ++ handles_of kind_13 (finite_cells D3).
Proof.
  intros r r2. subst r2 r. unfold classify_3_simplices.
  rewrite !classify_fold. cbn [fst snd finite_cells].
  rewrite ?classify_fold. cbn [snd three_one two_two one_three].
  pose proof (handles_of_sizes (finite_cells D3)) as Hsz.
  unfold sizes, number_of_finite_cells. cbn [three_one two_two one_three].
  rewrite <- !app_assoc, !length_app.
  repeat split; lia.
Qed.

(** X3.  A classification pass writes tags and nothing else: the finite
    cells, the finite edges and the engine's validity are as before, so
    [check_timeslices], [classify_edges] and the removals of
    [fix_timeslices] are the same after it as before it. *)
Theorem classify_3_simplices_only_tags (D3 : Delaunay) (s : Simplices)
    (output output' : bool) (n : EdgeCounters) :
  let D3' := fst (classify_3_simplices D3 s) in
  finite_cells D3' = finite_cells D3 /\
  finite_edges D3' = finite_edges D3 /\
  is_valid D3' = is_valid D3 /\
  check_timeslices D3' output' = check_timeslices D3 output /\
  snd (classify_edges D3' n) = snd (classify_edges D3 n) /\
  fix_timeslices_removed D3' = fix_timeslices_removed D3.
Proof.
  intros D3'. subst D3'. unfold classify_3_simplices.
  rewrite classify_fold. cbn [fst].
  repeat split.
Qed.

Lemma count_values_min_fold (m : Z) (l : list Z) (n : ValueCounts) :
  0 <= min_values n ->
  min_values n + Z.of_nat (length l) < Unsigned.modulus ->
  min_values (fold_left (count_value m) l n)
  = min_values n + Z.of_nat (length l) - Z.of_nat (count_occ Z.eq_dec l m).
Proof.
  revert n. induction l as [|t l IH]; intros n H0 Hlt.
  - cbn. lia.
  - cbn [fold_left count_occ length]. cbn [length] in Hlt.
    unfold count_value at 2.
    destruct (Z.eqb_spec t m) as [->|Hne].
    + rewrite IH; cbn [min_values]; try lia.
      destruct (Z.eq_dec m m); [lia|congruence].
    + rewrite IH; cbn [min_values]; unfold Unsigned.incr;
        rewrite UnsignedFacts.wrap_small by (unfold Unsigned.in_range; lia);
        try lia.
      destruct (Z.eq_dec t m); [congruence|lia].
Qed.

(** The two counters of the drain loop always add up to 4. *)
Lemma count_values_min_values (c : Cell) :
  min_values (count_values c) = 4 - max_count c.
Proof.
  pose proof (count_values_max_count c) as Hmax. revert Hmax.
  unfold count_values.
  set (rest := rev (StdList.pop_back (StdList.sort (cell_labels c)))).
  set (m := StdList.back (StdList.sort (cell_labels c))).
  assert (Hlen : length rest = 3%nat).
  { subst rest. rewrite length_rev.
    assert (Hne : StdList.sort (cell_labels c) <> [])
      by (apply sort_not_nil; discriminate).
    pose proof (f_equal (@length Z) (app_removelast_last 0 Hne)) as HS.
    pose proof (Permutation_length (sort_perm (cell_labels c))) as HL.
    change (length (cell_labels c)) with 4%nat in HL.
    rewrite length_app in HS. cbn [length] in HS.
    unfold StdList.pop_back. lia. }
  rewrite count_values_fold, count_values_min_fold; cbn [max_values min_values];
    rewrite ?Hlen; try (change (Unsigned.incr 0) with 1);
    try (unfold Unsigned.modulus; lia).
Qed.

(** In a cell that spans exactly one timeslice every vertex is on the
    minimum or on the maximum, and both are taken. *)
Lemma foliated_cell_counts (c : Cell) :
  max_label c - min_label c = 1 ->
  1 <= max_count c <= 3 /\ min_count c = 4 - max_count c.
Proof.
  unfold max_count, min_count, cell_labels, indices, max_label, min_label.
  cbn [map vertex count_occ].
  generalize (v_info (c_v0 c)), (v_info (c_v1 c)), (v_info (c_v2 c)),
    (v_info (c_v3 c)).
  intros a b e d H.
  set (hi := Z.max (Z.max a b) (Z.max e d)) in *.
  set (lo := Z.min (Z.min a b) (Z.min e d)) in *.
  assert (Ha : a = lo \/ a = hi) by lia.
  assert (Hb : b = lo \/ b = hi) by lia.
  assert (He : e = lo \/ e = hi) by lia.
  assert (Hd : d = lo \/ d = hi) by lia.
  assert (Hhi : a = hi \/ b = hi \/ e = hi \/ d = hi) by lia.
  assert (Hlo : a = lo \/ b = lo \/ e = lo \/ d = lo) by lia.
  clearbody hi lo.
  destruct Ha as [-> | ->], Hb as [-> | ->], He as [-> | ->], Hd as [-> | ->];
    repeat match goal with
           | |- context [Z.eq_dec ?x ?y] => destruct (Z.eq_dec x y)
           end; cbn [Z.of_nat]; lia.
Qed.

(** X4.  After a pass over cells with distinct handles, a finite cell whose
    timeslices span exactly one unit carries the tag that tells how its
    vertices split over the two slices: with [k] vertices on the later
    slice and [4 - k] on the earlier one, [k] is 1, 2 or 3 and the tag is
    31, 22 or 13 accordingly; the classifier's second counter,
    [min_values], is [4 - k]. *)
Theorem classify_3_simplices_foliated_cell (D3 : Delaunay) (s : Simplices)
    (c : Cell) :
  List.NoDup (map c_handle (finite_cells D3)) ->
  In c (finite_cells D3) ->
  max_label c - min_label c = 1 ->
  let tag := cell_info (fst (classify_3_simplices D3 s)) !! c_handle c in
  1 <= max_count c <= 3 /\
  min_count c = 4 - max_count c /\
  min_values (count_values c) = min_count c /\
  (tag = Some 31 <-> max_count c = 1 /\ min_count c = 3) /\
  (tag = Some 22 <-> max_count c = 2 /\ min_count c = 2) /\
  (tag = Some 13 <-> max_count c = 3 /\ min_count c = 1).
Proof.
  intros Hnd Hc Hspan tag. subst tag. unfold classify_3_simplices.
  rewrite classify_fold. cbn [fst cell_info].
  rewrite (tagged_lookup _ _ _ Hnd Hc).
  destruct (foliated_cell_counts c Hspan) as [Hk Hmin].
  rewrite count_values_min_values, Hmin.
  split; [exact Hk|]. split; [reflexivity|]. split; [reflexivity|].
  unfold tag_of.
  destruct (Z.eqb_spec (max_count c) 3) as [H3|H3];
    [|destruct (Z.eqb_spec (max_count c) 2) as [H2|H2]];
    repeat split; intros; try discriminate; try lia;
    try (f_equal; lia).
Qed.

Lemma classify_3_simplices_foliated_cell_witness :
  List.NoDup (map c_handle (finite_cells Toy.mixed)) /\
  In (Toy.cell 1 1 1 2 2 true) (finite_cells Toy.mixed) /\
  max_label (Toy.cell 1 1 1 2 2 true) - min_label (Toy.cell 1 1 1 2 2 true) = 1 /\
  cell_info (fst (classify_3_simplices Toy.mixed Toy.some_simplices))
    !! c_handle (Toy.cell 1 1 1 2 2 true) = Some 22.
Proof.
  assert (H : List.NoDup (map c_handle (finite_cells Toy.mixed))) by nodup_tac.
  assert (Hin : In (Toy.cell 1 1 1 2 2 true) (finite_cells Toy.mixed))
    by (cbn; tauto).
  split; [exact H|]. split; [exact Hin|]. split; [reflexivity|].
  destruct (classify_3_simplices_foliated_cell Toy.mixed Toy.some_simplices
              (Toy.cell 1 1 1 2 2 true) H Hin eq_refl)
    as (_ & _ & _ & _ & H22 & _).
  apply H22. split; reflexivity.
Defined.

(** ** Further properties of a repair pass *)

Lemma repairable_bad_foliation (c : Cell) (mv : Index) :
  labels_in_range c ->
  c_is_valid c && bad_foliation (scan_cell c mv) = repairable c.
Proof.
  intros H. unfold repairable. now rewrite bad_foliation_scan.
Qed.

Lemma fix_cells_removed_fold (cs : list Cell) (acc : list Vertex) (mv : Index) :
  Forall labels_in_range cs ->
  let removed := fst (fold_left fix_cell_removed cs (acc, mv)) in
  exists new : list Vertex,
    removed = acc ++ new /\
    length new = length (List.filter repairable cs) /\
    Forall (fun v => exists c, In c cs /\ repairable c = true /\
                               In v (cell_vertices c)) new.
Proof.
  intros Hcs. revert acc mv.
  induction Hcs as [|c cs Hc Hcs IH]; intros acc mv; cbn [fold_left List.filter].
  - exists []. cbn. rewrite app_nil_r. split; [reflexivity|]. split; [reflexivity|].
    constructor.
  - assert (Hweak : forall new,
               Forall (fun v => exists c', In c' cs /\ repairable c' = true /\
                                           In v (cell_vertices c')) new ->
               Forall (fun v => exists c', In c' (c :: cs) /\ repairable c' = true /\
                                           In v (cell_vertices c')) new).
    { intros new Hall. eapply List.Forall_impl; [|exact Hall].
      intros v (c' & Hc' & Hr & Hin). exists c'. split; [now right|]. now split. }
    unfold fix_cell_removed at 2.
    rewrite <- (repairable_bad_foliation c mv Hc).
    destruct (c_is_valid c) eqn:Hv; cbn [andb].
    + destruct (bad_foliation (scan_cell c mv)) eqn:Hb.
      * destruct (IH (acc ++ [vertex c (max_vertex (scan_cell c mv))])
                    (max_vertex (scan_cell c mv))) as (new & Hnew & Hlen & Hall).
        exists (vertex c (max_vertex (scan_cell c mv)) :: new).
        split; [|split].
        -- cbv zeta in Hnew. rewrite Hnew, <- app_assoc. reflexivity.
        -- cbn [length]. now rewrite Hlen.
        -- constructor; [|now apply Hweak].
           exists c. split; [now left|]. split.
           ++ rewrite <- (repairable_bad_foliation c mv Hc), Hv, Hb.
              reflexivity.
           ++ unfold cell_vertices. apply in_map.
              destruct (max_vertex (scan_cell c mv)); cbn; tauto.
      * destruct (IH acc (max_vertex (scan_cell c mv))) as (new & Hnew & Hlen & Hall).
        exists new. split; [exact Hnew|]. split; [exact Hlen|]. now apply Hweak.
    + destruct (IH acc mv) as (new & Hnew & Hlen & Hall).
      exists new. split; [exact Hnew|]. split; [exact Hlen|]. now apply Hweak.
Qed.

Lemma filter_length_zero {A : Type} (f : A -> bool) (l : list A) :
  length (List.filter f l) = 0%nat <-> forall x, In x l -> f x = false.
Proof.
  induction l as [|a l IH]; cbn [List.filter In].
  - split; [intros _ x []|reflexivity].
  - destruct (f a) eqn:Ha; cbn [length].
    + split; [discriminate|]. intros H. specialize (H a (or_introl eq_refl)).
      congruence.
    + rewrite IH. split.
      * intros H x [<-|Hx]; [exact Ha|now apply H].
      * intros H x Hx. apply H. now right.
Qed.

Lemma fix_timeslices_removed_length (D3 : Delaunay) :
  Forall labels_in_range (finite_cells D3) ->
  length (fix_timeslices_removed D3)
  = length (List.filter repairable (finite_cells D3)) /\
  Forall (fun v => exists c, In c (finite_cells D3) /\ repairable c = true /\
                             In v (cell_vertices c))
         (fix_timeslices_removed D3).
Proof.
  intros H. unfold fix_timeslices_removed.
  destruct (fix_cells_removed_fold (finite_cells D3) [] I0 H)
    as (new & Hnew & Hlen & Hall).
  cbv zeta in Hnew. cbn [app] in Hnew. rewrite Hnew. now split.
Qed.

(** What the validator's verdict says about the cells. *)
Lemma check_timeslices_verdict (D3 : Delaunay) (output b : bool) :
  Forall labels_in_range (finite_cells D3) ->
  Z.of_nat (number_of_finite_cells D3) < Unsigned.modulus ->
  check_timeslices D3 output = Ok b ->
  (b = true <->
   forall c, In c (finite_cells D3) ->
             c_is_valid c = true /\ max_label c - min_label c = 1).
Proof.
  intros Hlabels Hsize Hcheck.
  assert (H0 : Unsigned.in_range 0)
    by (unfold Unsigned.in_range, Unsigned.modulus; lia).
  destruct (check_cells_fold (finite_cells D3) {| valid := 0; invalid := 0 |}
              Hlabels H0 H0) as [_ Hi].
  cbn [invalid] in Hi. rewrite Z.add_0_l in Hi.
  pose proof (filter_length_le invalid_cell (finite_cells D3)) as Hle.
  unfold number_of_finite_cells in Hsize.
  rewrite UnsignedFacts.wrap_small in Hi by (unfold Unsigned.in_range; lia).
  fold (count_timeslices D3) in Hi.
  destruct (check_timeslices_cases D3 output) as [[_ H]|[_ H]];
    rewrite H in Hcheck; [|discriminate].
  injection Hcheck as <-. rewrite Hi.
  assert (Hcells : length (List.filter invalid_cell (finite_cells D3)) = 0%nat <->
                   forall c, In c (finite_cells D3) ->
                             c_is_valid c = true /\ max_label c - min_label c = 1).
  { rewrite filter_length_zero. split; intros Hall c Hc; specialize (Hall c Hc).
    - unfold invalid_cell in Hall. destruct (c_is_valid c); [|discriminate].
      apply negb_false_iff, Z.eqb_eq in Hall. now split.
    - destruct Hall as [Hv Hd]. unfold invalid_cell. rewrite Hv, Hd. reflexivity. }
  rewrite <- Hcells.
  destruct (Z.eqb_spec (Z.of_nat (length (List.filter invalid_cell (finite_cells D3)))) 0);
    split; intros; (reflexivity || lia || discriminate).
Qed.

Section RepairPass.

Variable remove : Delaunay -> Vertex_handle -> Delaunay.


Lemma fix_timeslices_nothing_to_repair (D3 : Delaunay) (output : bool) :
  Forall labels_in_range (finite_cells D3) ->
  (forall c, In c (finite_cells D3) -> repairable c = false) ->
  fix_timeslices remove D3 output = D3.
Proof.
  intros Hlabels Hnone. rewrite fix_timeslices_removed_eq.
  destruct (fix_timeslices_removed_length D3 Hlabels) as [Hlen _].
  apply filter_length_zero in Hnone. rewrite Hnone in Hlen.
  destruct (fix_timeslices_removed D3); [reflexivity|discriminate].
Qed.

(** X6.  A pass of [fix_timeslices] over a triangulation that
    [check_timeslices] accepts changes nothing: no vertex is removed. *)
Theorem fix_timeslices_keeps_foliated (D3 : Delaunay) (output : bool) :
  Forall labels_in_range (finite_cells D3) ->
  Z.of_nat (number_of_finite_cells D3) < Unsigned.modulus ->
  check_timeslices D3 output = Ok true ->
  fix_timeslices remove D3 output = D3 /\ fix_timeslices_removed D3 = [].
Proof.
  intros Hlabels Hsize Hcheck.
  pose proof (proj1 (check_timeslices_verdict D3 output true Hlabels Hsize Hcheck)
                eq_refl) as Hall.
  assert (Hnone : forall c, In c (finite_cells D3) -> repairable c = false).
  { intros c Hc. destruct (Hall c Hc) as [Hv Hd]. unfold repairable.
    rewrite Hv, Hd. reflexivity. }
  split; [now apply fix_timeslices_nothing_to_repair|].
  destruct (fix_timeslices_removed_length D3 Hlabels) as [Hlen _].
  apply filter_length_zero in Hnone. rewrite Hnone in Hlen.
  destruct (fix_timeslices_removed D3); [reflexivity|discriminate].
Qed.

Lemma repair_loop_stuck (D : Delaunay) (output : bool) :
  check_timeslices D output = Ok false ->
  fix_timeslices remove D output = D ->
  forall (fuel : nat) (pass : Z),
    0 <= pass <= MAX_FOLIATION_FIX_PASSES ->
    MAX_FOLIATION_FIX_PASSES + 1 - pass <= Z.of_nat fuel ->
    repair_loop remove fuel D pass output
    = Some (Ok (D, MAX_FOLIATION_FIX_PASSES + 1)).
Proof.
  intros Hcheck Hfix. unfold MAX_FOLIATION_FIX_PASSES.
  induction fuel as [|fuel IH]; intros pass Hp Hf; [lia|].
  cbn [repair_loop]. rewrite Hcheck, Hfix.
  unfold Unsigned.incr.
  rewrite UnsignedFacts.wrap_small
    by (unfold Unsigned.in_range, Unsigned.modulus; lia).
  unfold MAX_FOLIATION_FIX_PASSES. rewrite Z.gtb_ltb.
  destruct (Z.ltb_spec 20 (pass + 1)) as [Hbreak|Hgo].
  - do 3 f_equal. lia.
  - apply IH; lia.
Qed.

(** X7.  The repair loop cannot cure a structurally invalid cell.  When
    every finite cell that is structurally valid spans exactly one
    timeslice and some finite cell is structurally invalid, every test of
    the loop fails and every pass of [fix_timeslices] removes nothing: the
    loop runs its 20 passes and ends on the triangulation it started on,
    with the counter at 21. *)
Theorem repair_loop_structurally_invalid_cell (fuel : nat) (D3 : Delaunay)
    (output : bool) :
  (21 <= fuel)%nat ->
  is_valid D3 = true ->
  Forall labels_in_range (finite_cells D3) ->
  Z.of_nat (number_of_finite_cells D3) < Unsigned.modulus ->
  (forall c, In c (finite_cells D3) -> repairable c = false) ->
  (exists c, In c (finite_cells D3) /\ c_is_valid c = false) ->
  check_timeslices D3 output = Ok false /\
  fix_timeslices remove D3 output = D3 /\
  repair_loop remove fuel D3 0 output = Some (Ok (D3, 21)).
Proof.
  intros Hfuel Hvalid Hlabels Hsize Hnone (c & Hc & Hbad).
  assert (Hcheck : check_timeslices D3 output = Ok false).
  { destruct (check_timeslices_cases D3 output) as [[_ H]|[H _]]; [|congruence].
    destruct (if invalid (count_timeslices D3) =? 0 then true else false) eqn:Hb;
      [|exact H].
    destruct (proj1 (check_timeslices_verdict D3 output true Hlabels Hsize H)
                eq_refl c Hc) as [Hv _].
    congruence. }
  assert (Hfix : fix_timeslices remove D3 output = D3)
    by now apply fix_timeslices_nothing_to_repair.
  split; [exact Hcheck|]. split; [exact Hfix|].
  apply (repair_loop_stuck D3 output Hcheck Hfix fuel 0);
    unfold MAX_FOLIATION_FIX_PASSES; lia.
Qed.

End RepairPass.

(** ** Further properties of the builder *)

Lemma combine_map_fst {A B : Type} (l : list A) (l' : list B) :
  length l = length l' -> map fst (combine l l') = l.
Proof.
  revert l'. induction l as [|a l IH]; intros [|b l'] H; cbn in *;
    try discriminate; [reflexivity|]. f_equal. apply IH. lia.
Qed.

Lemma combine_map_snd {A B : Type} (l : list A) (l' : list B) :
  length l = length l' -> map snd (combine l l') = l'.
Proof.
  revert l'. induction l as [|a l IH]; intros [|b l'] H; cbn in *;
    try discriminate; [reflexivity|]. f_equal. apply IH. lia.
Qed.

Section BuilderFacts.

Context {Point : Type} {Random : Type}.
Variable random_point_on_sphere : Z -> Random -> Point * Random.
Variable insert : Delaunay -> list (Point * Z) -> Delaunay.
Variable remove : Delaunay -> Vertex_handle -> Delaunay.

Lemma make_2_sphere_in_step (ps : Points) (number_of_points radius : Z)
    (output : bool) :
  in_step ps ->
  in_step (make_2_sphere random_point_on_sphere ps number_of_points radius output).
Proof.
  intros [Hlen Hall]. unfold make_2_sphere.
  destruct (make_2_sphere_loop_appends random_point_on_sphere
              (Z.to_nat (Unsigned.int_to_size_t number_of_points)) radius ps)
    as (Ht & new & Hv & Hn & _).
  split.
  - rewrite Ht, Hv, !length_app, repeat_length. lia.
  - rewrite Ht. apply List.Forall_app. split; [exact Hall|].
    apply List.Forall_forall. intros t Hin. apply repeat_spec in Hin. subst t.
    apply UnsignedFacts.wrap_in_range.
Qed.

Lemma make_spheres_in_step (timeslices points : Z) (output : bool) (ps : Points) :
  in_step ps ->
  in_step (make_spheres random_point_on_sphere timeslices points output ps).
Proof.
  unfold make_spheres. generalize (seq 0 (Z.to_nat timeslices)). intros l.
  revert ps. induction l as [|i l IH]; intros ps H; [exact H|].
  cbn [fold_left]. apply IH. now apply make_2_sphere_in_step.
Qed.


(** What a returned universe was made of. *)
Lemma make_S3_triangulation_returned (fuel : nat) (D3 : Delaunay)
    (simplices timeslices : Z) (output : bool) (s : Simplices) (g : Random)
    (u : Universe) :
  make_S3_triangulation random_point_on_sphere insert remove
    fuel D3 simplices timeslices output s g = Some (Ok u) ->
  exists (ps : Points) (D' : Delaunay),
    generate_points random_point_on_sphere simplices timeslices output g = Ok ps /\
    repair_loop remove fuel (insert_into_S3 insert D3 (vertices ps) (timevalue ps))
      0 output = Some (Ok (D', u_pass u)) /\
    u_D3 u = fst (classify_3_simplices D' s) /\
    u_simplices u = snd (classify_3_simplices D' s) /\
    check_timeslices D' output = Ok (u_valid u) /\
    is_valid D' = true /\
    u_number_of_finite_cells u = number_of_finite_cells D'.
Proof.
  unfold make_S3_triangulation.
  destruct (generate_points _ _ _ _ _) as [ps|e]; [|discriminate].
  unfold build.
  destruct (repair_loop _ _ _ _ _) as [[[D' pass]|e]|] eqn:Hloop;
    [|discriminate|discriminate].
  unfold classify_3_simplices. rewrite classify_fold.
  rewrite (check_timeslices_same_cells D' _ output false) by reflexivity.
  cbn [is_valid].
  destruct (check_timeslices_cases D' output) as [[Hv H]|[Hv H]]; rewrite H, Hv;
    [|discriminate].
  cbn [bind assert]. intros Hu. injection Hu as <-.
  exists ps, D'. cbn [u_pass u_D3 u_simplices u_valid u_number_of_finite_cells fst snd].
  rewrite ?classify_fold. cbn [fst snd]. rewrite ?Hv.
  repeat split; assumption.
Qed.

(** With fuel for 21 tests of the loop condition the model reaches an end. *)
Lemma make_S3_triangulation_ends (fuel : nat) (D3 : Delaunay)
    (simplices timeslices : Z) (output : bool) (s : Simplices) (g : Random) :
  (21 <= fuel)%nat ->
  make_S3_triangulation random_point_on_sphere insert remove
    fuel D3 simplices timeslices output s g <> None.
Proof.
  intros Hfuel Hmake. unfold make_S3_triangulation in Hmake.
  destruct (generate_points _ _ _ _ _) as [ps|e]; [|discriminate].
  unfold build in Hmake.
  destruct (repair_loop_runs remove fuel
              (insert_into_S3 insert D3 (vertices ps) (timevalue ps)) 0 output)
    as (r & Hr & _).
  { unfold MAX_FOLIATION_FIX_PASSES. lia. }
  { unfold MAX_FOLIATION_FIX_PASSES. lia. }
  rewrite Hr in Hmake. destruct r as [[D' pass]|e]; [|discriminate].
  destruct (classify_3_simplices D' s). discriminate.
Qed.

(** X8.  The points handed to the engine: whenever the generation returns,
    whatever the counts asked for, the vector of points and the vector of
    timevalues have the same length and every timevalue is an [unsigned],
    so the zipped range [insert_into_S3] passes to [insert] has one pair
    per point, whose first components are the points and whose second
    components are the timevalues, in order. *)
Theorem generate_points_zip (simplices timeslices : Z) (output : bool)
    (g : Random) (ps : Points) :
  generate_points random_point_on_sphere simplices timeslices output g = Ok ps ->
  length (vertices ps) = length (timevalue ps) /\
  Forall Unsigned.in_range (timevalue ps) /\
  length (combine (vertices ps) (timevalue ps)) = length (vertices ps) /\
  map fst (combine (vertices ps) (timevalue ps)) = vertices ps /\
  map snd (combine (vertices ps) (timevalue ps)) = timevalue ps /\
  forall D3,
    insert_into_S3 insert D3 (vertices ps) (timevalue ps)
    = insert D3 (combine (vertices ps) (timevalue ps)).
Proof.
  unfold generate_points. intros Hgen.
  destruct (assert (negb (timeslices =? 0)) DivisionByZero); [|discriminate].
  cbn [bind] in Hgen.
  destruct (assert (simplices / timeslices >=? 1) AssertSimplicesPerTimeslice);
    [|discriminate].
  cbn [bind] in Hgen.
  destruct (reserve _); [|discriminate]. cbn [bind] in Hgen.
  injection Hgen as <-.
  destruct (make_spheres_in_step timeslices
              (Unsigned.to_int (Unsigned.wrap (simplices / timeslices * 4)))
              output {| vertices := []; timevalue := []; random := g |})
    as [Hlen Hall].
  { split; [reflexivity|constructor]. }
  split; [exact Hlen|]. split; [exact Hall|].
  split; [rewrite length_combine, Hlen; apply Nat.min_id|].
  split; [now apply combine_map_fst|]. split; [now apply combine_map_snd|].
  reflexivity.
Qed.



(** X10.  The validity a build reports is the verdict of
    [check_timeslices] on the triangulation it returns, whatever the
    verbosity, and the engine holds that triangulation valid.  A build that
    reports an invalid foliation has used up all 20 repair passes.  On
    [unsigned] timeslices and fewer than [2 ^ 32] cells, the build reports
    a valid foliation exactly when every finite cell returned is
    structurally valid and spans exactly one timeslice. *)
Theorem make_S3_triangulation_verdict (fuel : nat) (D3 : Delaunay)
    (simplices timeslices : Z) (output : bool) (s : Simplices) (g : Random) :
  (21 <= fuel)%nat ->
  match make_S3_triangulation random_point_on_sphere insert remove
          fuel D3 simplices timeslices output s g with
  | Some (Ok u) =>
      (forall output', check_timeslices (u_D3 u) output' = Ok (u_valid u)) /\
      is_valid (u_D3 u) = true /\
      0 <= u_pass u <= 21 /\
      (u_valid u = false -> u_pass u = 21) /\
      (Forall labels_in_range (finite_cells (u_D3 u)) ->
       Z.of_nat (number_of_finite_cells (u_D3 u)) < Unsigned.modulus ->
       (u_valid u = true <->
        forall c, In c (finite_cells (u_D3 u)) ->
                  c_is_valid c = true /\ max_label c - min_label c = 1))
  | Some (Abort e) => True
  | None => False
  end.
Proof.
  intros Hfuel.
  pose proof (make_S3_triangulation_ends fuel D3 simplices timeslices output s g
                Hfuel) as Hend.
  destruct (make_S3_triangulation _ _ _ _ _ _ _ _ _ _) as [[u|e]|] eqn:Hmake;
    [|exact I|now apply Hend].
  clear Hend.
  destruct (make_S3_triangulation_returned _ _ _ _ _ _ _ _ Hmake)
    as (ps & D' & _ & Hloop & HD & _ & Hcheck & Hv & _).
  assert (Hsame : forall output', check_timeslices (u_D3 u) output'
                                  = check_timeslices D' output).
  { intros output'. rewrite HD. unfold classify_3_simplices.
    rewrite classify_fold. now apply check_timeslices_same_cells. }
  destruct (repair_loop_runs remove fuel
              (insert_into_S3 insert D3 (vertices ps) (timevalue ps)) 0 output)
    as (r & Hr & Hout).
  { unfold MAX_FOLIATION_FIX_PASSES. lia. }
  { unfold MAX_FOLIATION_FIX_PASSES. lia. }
  rewrite Hloop in Hr. injection Hr as <-.
  destruct Hout as (n & Hn & _ & Hpass).
  unfold MAX_FOLIATION_FIX_PASSES in *.
  split; [intros output'; now rewrite Hsame|].
  split; [rewrite HD; unfold classify_3_simplices; now rewrite classify_fold|].
  split; [destruct Hpass as [[-> _]|(-> & _)]; lia|].
  split.
  - intros Hfalse. destruct Hpass as [[_ Hc]|(Hp & _)]; [|exact Hp].
    rewrite Hcheck in Hc. congruence.
  - intros Hlabels Hsize.
    apply (check_timeslices_verdict (u_D3 u) output (u_valid u) Hlabels Hsize).
    now rewrite Hsame.
Qed.


End BuilderFacts.

(** ** The further properties on the small engine *)


Lemma fix_timeslices_keeps_foliated_witness :
  Forall labels_in_range (finite_cells Toy.foliated) /\
  Z.of_nat (number_of_finite_cells Toy.foliated) < Unsigned.modulus /\
  check_timeslices Toy.foliated false = Ok true /\
  fix_timeslices Toy.remove Toy.foliated false = Toy.foliated.
Proof.
  assert (H1 : Forall labels_in_range (finite_cells Toy.foliated)) by labels_tac.
  assert (H2 : Z.of_nat (number_of_finite_cells Toy.foliated) < Unsigned.modulus)
    by (vm_compute; reflexivity).
  split; [exact H1|]. split; [exact H2|]. split; [reflexivity|].
  exact (proj1 (fix_timeslices_keeps_foliated Toy.remove Toy.foliated false
                  H1 H2 eq_refl)).
Defined.

Lemma repair_loop_structurally_invalid_cell_witness :
  (21 <= 21)%nat /\ is_valid Toy.gap = true /\
  Forall labels_in_range (finite_cells Toy.gap) /\
  Z.of_nat (number_of_finite_cells Toy.gap) < Unsigned.modulus /\
  (forall c, In c (finite_cells Toy.gap) -> repairable c = false) /\
  (exists c, In c (finite_cells Toy.gap) /\ c_is_valid c = false) /\
  repair_loop Toy.remove 21 Toy.gap 0 false = Some (Ok (Toy.gap, 21)).
Proof.
  assert (H1 : Forall labels_in_range (finite_cells Toy.gap)) by labels_tac.
  assert (H2 : Z.of_nat (number_of_finite_cells Toy.gap) < Unsigned.modulus)
    by (vm_compute; reflexivity).
  assert (H3 : forall c, In c (finite_cells Toy.gap) -> repairable c = false).
  { intros c [<-|[<-|[]]]; reflexivity. }
  assert (H4 : exists c, In c (finite_cells Toy.gap) /\ c_is_valid c = false).
  { exists (Toy.cell 1 4 1 1 1 false). split; [cbn; tauto|reflexivity]. }
  split; [lia|]. split; [reflexivity|]. split; [exact H1|]. split; [exact H2|].
  split; [exact H3|]. split; [exact H4|].
  destruct (repair_loop_structurally_invalid_cell Toy.remove 21 Toy.gap false
              (le_n 21) eq_refl H1 H2 H3 H4) as (_ & _ & Hloop).
  exact Hloop.
Defined.

Lemma generate_points_zip_witness :
  exists ps,
    generate_points Toy.random_point_on_sphere 2 2 false 0%nat = Ok ps /\
    length (vertices ps) = length (timevalue ps) /\
    map snd (combine (vertices ps) (timevalue ps)) = timevalue ps.
Proof.
  eexists. split; [reflexivity|].
  destruct (generate_points_zip Toy.random_point_on_sphere Toy.insert
              2 2 false 0%nat _ eq_refl) as (Hlen & _ & _ & _ & Hsnd & _).
  split; [exact Hlen | exact Hsnd].
Defined.


Lemma make_S3_triangulation_verdict_witness :
  (21 <= 21)%nat /\
  match make_S3_triangulation Toy.random_point_on_sphere Toy.insert
          Toy.remove_nothing 21 Toy.empty 2 2 false Toy.no_simplices 0%nat with
  | Some (Ok u) => u_valid u = false /\ u_pass u = 21
  | _ => False
  end.
Proof.
  split; [lia|].
  pose proof (make_S3_triangulation_verdict Toy.random_point_on_sphere Toy.insert
                Toy.remove_nothing 21 Toy.empty 2 2 false Toy.no_simplices
                0%nat (le_n 21)) as H.
  destruct (make_S3_triangulation _ _ _ _ _ _ _ _ _ _) as [[u|e]|] eqn:Hmake;
    [| vm_compute in Hmake; discriminate Hmake | exact H].
  destruct H as (_ & _ & _ & Hpass & _).
  assert (Hv : u_valid u = false).
  { vm_compute in Hmake. injection Hmake as <-. reflexivity. }
  split; [exact Hv | now apply Hpass].
Defined.

